(** * Worktree manager: registry, lifecycle and conflict detection

    A shallow embedding of [src/git/worktree_manager.py].

    - Python [str] values are Rocq [string]s, read as sequences of code
      points below 256; [Py] gives the few [str] methods the manager uses.
    - The SQLite table [worktrees] is a list of rows in rowid order; a
      timestamp column (ISO-8601 UTC text in the file) is the number of
      microseconds since the epoch, as a [Z]: for the four-digit years that
      [datetime] covers the text order of the column is the order of these
      numbers, and [datetime.fromisoformat] undoes [isoformat].
    - [subprocess.run(["git", ...])] is an oracle over an external
      repository state; every invocation is appended to a call log, so that
      "no external call was made" can be stated.
    - Each read of [datetime.now(timezone.utc)] is an explicit argument
      [now] of the operation that performs it.
    - Exceptions are values: an operation returns [Returns a] or
      [Raises e] together with the world it leaves behind.
    - The staleness test of the sweep is given twice: read with exact
      division ([is_stale], [cleanup_stale_worktrees]) and with the two
      binary64 roundings of the source ([Binary64.is_stale],
      [Binary64.cleanup_stale_worktrees]); the two agree for inactivities
      of up to [2 ^ 51] microseconds.
    - Logging is not modelled. *)

From Stdlib Require Import ZArith List String Ascii Bool Arith Lia Permutation Sorted.
From Stdlib Require Import SpecFloat.
Import ListNotations.

Local Open Scope string_scope.
Local Open Scope list_scope.

(** ** Python [str] methods *)

Module Py.

(** [str.isspace] on one code point below 256. *)
Definition isspace (c : ascii) : bool :=
  let n := nat_of_ascii c in
  (((9 <=? n) && (n <=? 13)) || ((28 <=? n) && (n <=? 32))
   || (n =? 133) || (n =? 160))%nat.

(** [str.lower] on one code point below 256. *)
Definition lower_char (c : ascii) : ascii :=
  let n := nat_of_ascii c in
  if (((65 <=? n) && (n <=? 90))
      || ((192 <=? n) && (n <=? 222) && negb (n =? 215)))%nat
  then ascii_of_nat (n + 32) else c.

(** [s.lower()] *)
Fixpoint lower (s : string) : string :=
  match s with
  | EmptyString => EmptyString
  | String c s' => String (lower_char c) (lower s')
  end.

(** [s.startswith(p)] *)
Fixpoint startswith (s p : string) : bool :=
  match p, s with
  | EmptyString, _ => true
  | String _ _, EmptyString => false
  | String a p', String b s' => Ascii.eqb a b && startswith s' p'
  end.

(** [sub in s] *)
Fixpoint contains (s sub : string) : bool :=
  startswith s sub
  || match s with
     | EmptyString => false
     | String _ s' => contains s' sub
     end.

(** [s.split(sep)] for a one-character separator: the result is never
    empty, and an empty piece is kept. *)
Fixpoint split_on (sep : ascii) (s : string) : list string :=
  match s with
  | EmptyString => [EmptyString]
  | String c s' =>
      if Ascii.eqb c sep then EmptyString :: split_on sep s'
      else match split_on sep s' with
           | piece :: rest => String c piece :: rest
           | [] => [String c EmptyString]
           end
  end.

(** [s.split()]: maximal runs of non-whitespace characters. *)
Fixpoint split (s : string) : list string :=
  match s with
  | EmptyString => []
  | String c s' =>
      if isspace c then split s'
      else match s' with
           | EmptyString => [String c EmptyString]
           | String c' _ =>
               if isspace c' then String c EmptyString :: split s'
               else match split s' with
                    | tok :: rest => String c tok :: rest
                    | [] => [String c EmptyString]
                    end
           end
  end.

(** [parts[-1]] on a list the caller knows to be non-empty. *)
Definition last_item (parts : list string) : string := last parts EmptyString.

End Py.

(** The newline character, ["\n"]. *)
Definition LF : ascii := ascii_of_nat 10.

(** ** Data classes *)

(** [ConflictFile]; the three version fields default to [None]. *)
Record ConflictFile := mkConflictFile {
  cf_path : string;
  conflict_type : string;
  our_version : option string;
  their_version : option string;
  base_version : option string
}.

(** [ConflictFile(path=file_path, conflict_type="content")] *)
Definition content_conflict (file_path : string) : ConflictFile :=
  mkConflictFile file_path "content" None None None.

(** What [subprocess.run(..., capture_output=True, text=True)] hands back. *)
Record CompletedProcess := mkCompleted {
  returncode : Z;
  stdout : string;
  stderr : string
}.

(** ** Parsing the dry-run report (the body of [detect_conflicts]) *)

(** The guard [result.returncode != 0 or "conflict" in result.stdout.lower()]. *)
Definition has_conflicts (result : CompletedProcess) : bool :=
  negb (returncode result =? 0)%Z
  || Py.contains (Py.lower (stdout result)) "conflict".

(** One iteration of [for line in lines]: what is appended to [conflicts]. *)
Definition scan_line (line : string) : list ConflictFile :=
  if Py.startswith line "changed in both" then
    let parts := Py.split line in
    if (4 <=? List.length parts)%nat then [content_conflict (Py.last_item parts)] else []
  else [].

(** The loop [for line in lines], started from the list built so far. *)
Definition scan_lines (lines : list string) (conflicts : list ConflictFile)
  : list ConflictFile :=
  fold_left (fun acc line => acc ++ scan_line line) lines conflicts.

(** From [conflicts = []] to [return conflicts]. *)
Definition parse_report (result : CompletedProcess) : list ConflictFile :=
  if has_conflicts result
  then scan_lines (Py.split_on LF (stdout result)) []
  else [].

(** ** The host: [pathlib] and the external [git] executable *)

(** What the manager takes from its environment.  [Path] is
    [pathlib.Path] with the three operations used on it; [run_git] is one
    completed [subprocess.run(["git", ...], cwd=self.repo_path)] on the
    external repository state [Repo], given the whole argument vector. *)
Class Host := {
  Path : Type;
  truediv : Path -> string -> Path;
  path_str : Path -> string;
  Path_of : string -> Path;
  Path_of_str : forall p : Path, Path_of (path_str p) = p;
  Repo : Type;
  run_git : Repo -> list string -> Repo * CompletedProcess
}.

(** [WorktreeInfo] *)
Record WorktreeInfo `{Host} := mkWorktreeInfo {
  agent_id : string;
  path : Path;
  branch : string;
  created_at : Z;
  last_active : Z;
  status : string
}.
Arguments mkWorktreeInfo {_} _ _ _ _ _ _.

(** One row of the table [worktrees], columns in declaration order. *)
Record Row := mkRow {
  row_agent_id : string;
  row_path : string;
  row_branch : string;
  row_created_at : Z;
  row_last_active : Z;
  row_status : string
}.

(** The exceptions the manager raises or lets through. *)
Inductive exn :=
| ValueError (msg : string)
| CalledProcessError (code : Z) (cmd : list string) (output err : string)
| IntegrityError (msg : string).

Inductive outcome (A : Type) :=
| Returns (a : A)
| Raises (e : exn).
Arguments Returns {A} a.
Arguments Raises {A} e.

(** One external invocation as the call log keeps it. *)
Definition call := (list string * CompletedProcess)%type.

(** The table, the external repository, and the log of invocations. *)
Record World `{Host} := mkWorld {
  db : list Row;
  repo : Repo;
  calls : list call
}.
Arguments mkWorld {_} _ _ _.

(** A method body: it runs in a world, leaves a world, and returns or raises. *)
Definition M `{Host} (A : Type) : Type := World -> outcome A * World.

Definition ret `{Host} {A : Type} (a : A) : M A := fun w => (Returns a, w).

Definition raise `{Host} {A : Type} (e : exn) : M A := fun w => (Raises e, w).

Definition bind `{Host} {A B : Type} (m : M A) (k : A -> M B) : M B :=
  fun w =>
    match m w with
    | (Returns a, w') => k a w'
    | (Raises e, w') => (Raises e, w')
    end.

(** [try: m  except Exception: ...]: the outcome becomes a value. *)
Definition try_ `{Host} {A : Type} (m : M A) : M (outcome A) :=
  fun w => let (r, w') := m w in (Returns r, w').

Declare Scope manager_scope.
Delimit Scope manager_scope with manager.
Notation "x <- m ;; k" := (bind m (fun x => k))
  (at level 100, m at next level, right associativity) : manager_scope.
Notation "m ;;; k" := (bind m (fun _ => k))
  (at level 100, right associativity) : manager_scope.
Local Open Scope manager_scope.

(** *** SQLite statements *)

Definition of_row `{Host} (r : Row) : WorktreeInfo :=
  mkWorktreeInfo (row_agent_id r) (Path_of (row_path r)) (row_branch r)
                 (row_created_at r) (row_last_active r) (row_status r).

(** [SELECT ... WHERE agent_id = ?] followed by [fetchone()]. *)
Definition select_one (a : string) (rows : list Row) : option Row :=
  find (fun r => String.eqb (row_agent_id r) a) rows.

(** [INSERT INTO worktrees ...]: the primary key rejects a second row with
    the same [agent_id]; a new row gets the largest rowid. *)
Definition insert_row (r : Row) (rows : list Row) : outcome (list Row) :=
  match select_one (row_agent_id r) rows with
  | Some _ => Raises (IntegrityError "UNIQUE constraint failed: worktrees.agent_id")
  | None => Returns (rows ++ [r])
  end.

(** [DELETE FROM worktrees WHERE agent_id = ?] *)
Definition delete_rows (a : string) (rows : list Row) : list Row :=
  filter (fun r => negb (String.eqb (row_agent_id r) a)) rows.

(** [UPDATE worktrees SET last_active = ? WHERE agent_id = ?] *)
Definition set_last_active (now : Z) (a : string) (rows : list Row) : list Row :=
  map (fun r =>
         if String.eqb (row_agent_id r) a
         then mkRow (row_agent_id r) (row_path r) (row_branch r)
                    (row_created_at r) now (row_status r)
         else r) rows.

(** [ORDER BY created_at DESC]; rows with equal keys stay in rowid order. *)
Fixpoint insert_desc (r : Row) (sorted : list Row) : list Row :=
  match sorted with
  | [] => [r]
  | x :: xs =>
      if (row_created_at x <=? row_created_at r)%Z then r :: sorted
      else x :: insert_desc r xs
  end.

Definition order_by_created_at_desc (rows : list Row) : list Row :=
  fold_right insert_desc [] rows.

(** *** [subprocess.run] *)

(** [subprocess.run(cmd, cwd=self.repo_path, check=..., capture_output=True,
    text=True)] for a [git] that is started and runs to completion: the call
    is logged; with [check=True] a nonzero return code raises
    [CalledProcessError] carrying the captured streams.  A process that
    cannot be started, or output that cannot be decoded, is not modelled. *)
Definition subprocess_run `{Host} (cmd : list string) (check : bool)
  : M CompletedProcess :=
  fun w =>
    let (g, result) := run_git (repo w) cmd in
    let w' := mkWorld (db w) g (calls w ++ [(cmd, result)]) in
    if check && negb (returncode result =? 0)%Z
    then (Raises (CalledProcessError (returncode result) cmd
                                     (stdout result) (stderr result)), w')
    else (Returns result, w').

(** *** [GitWorktreeManager] *)

(** The attribute of [self] that the methods below read. *)
Record GitWorktreeManager `{Host} := mkManager {
  worktree_base_dir : Path
}.
Arguments mkManager {_} _.

(** [_get_worktree] *)
Definition _get_worktree `{Host} (a : string) : M (option WorktreeInfo) :=
  fun w => (Returns (option_map of_row (select_one a (db w))), w).

(** The message of the [ValueError] raised by [create_worktree]. *)
Definition already_exists_msg `{Host} (a : string) (existing : WorktreeInfo)
  : string :=
  ("Worktree already exists for agent " ++ a ++ ": "
   ++ path_str (path existing))%string.

(** The message of the [ValueError] raised by [remove_worktree] and
    [detect_conflicts]. *)
Definition does_not_exist_msg (a : string) : string :=
  ("Worktree does not exist for agent " ++ a)%string.

(** The [INSERT] of [create_worktree], with its commit. *)
Definition sql_insert `{Host} (r : Row) : M unit :=
  fun w =>
    match insert_row r (db w) with
    | Returns rows => (Returns tt, mkWorld rows (repo w) (calls w))
    | Raises e => (Raises e, w)
    end.

(** The [DELETE] of [remove_worktree], with its commit. *)
Definition sql_delete `{Host} (a : string) : M unit :=
  fun w => (Returns tt, mkWorld (delete_rows a (db w)) (repo w) (calls w)).

(** [create_worktree]; [now] is the clock reading taken after
    [git worktree add] has returned. *)
Definition create_worktree `{Host} (self : GitWorktreeManager) (now : Z)
    (a : string) (base_branch : string) : M Path :=
  existing <- _get_worktree a ;;
  match existing with
  | Some e => raise (ValueError (already_exists_msg a e))
  | None =>
      let worktree_path :=
        truediv (worktree_base_dir self) ("worktree-" ++ a)%string in
      let branch_name := ("agent-" ++ a)%string in
      subprocess_run ["git"; "worktree"; "add"; path_str worktree_path;
                      "-b"; branch_name; base_branch] true ;;;
      sql_insert (mkRow a (path_str worktree_path) branch_name now now "active") ;;;
      ret worktree_path
  end.

(** [remove_worktree] *)
Definition remove_worktree `{Host} (a : string) (force : bool) : M unit :=
  worktree <- _get_worktree a ;;
  match worktree with
  | None => raise (ValueError (does_not_exist_msg a))
  | Some wt =>
      let cmd := ["git"; "worktree"; "remove"; path_str (path wt)] in
      let cmd := if force then cmd ++ ["--force"] else cmd in
      subprocess_run cmd true ;;;
      subprocess_run ["git"; "branch"; "-D"; branch wt] true ;;;
      sql_delete a
  end.

(** [list_worktrees] *)
Definition list_worktrees `{Host} : M (list WorktreeInfo) :=
  fun w => (Returns (map of_row (order_by_created_at_desc (db w))), w).

(** [detect_conflicts] *)
Definition detect_conflicts `{Host} (a : string) (target_branch : string)
  : M (list ConflictFile) :=
  worktree <- _get_worktree a ;;
  match worktree with
  | None => raise (ValueError (does_not_exist_msg a))
  | Some wt =>
      result <- subprocess_run ["git"; "merge-tree"; target_branch; branch wt]
                               false ;;
      ret (parse_report result)
  end.

(** [update_last_active]; [now] is the clock reading of the call. *)
Definition update_last_active `{Host} (now : Z) (a : string) : M unit :=
  fun w => (Returns tt, mkWorld (set_last_active now a (db w)) (repo w) (calls w)).

(** Microseconds in a minute. *)
Definition MINUTE : Z := 60000000.

(** [(now - wt.last_active).total_seconds() / 60 > stale_threshold_minutes].
    The difference is a whole number of microseconds and the threshold a
    whole number of minutes; the two float divisions of the source are read
    as exact division, so the test is a comparison of integers.  The test
    with its two roundings is [Binary64.is_stale] below. *)
Definition is_stale `{Host} (now : Z) (stale_threshold_minutes : Z)
    (wt : WorktreeInfo) : bool :=
  (stale_threshold_minutes * MINUTE <? now - last_active wt)%Z.

(** The loop of [cleanup_stale_worktrees] over the rows listed before it. *)
Fixpoint sweep `{Host} (now : Z) (stale_threshold_minutes : Z)
    (worktrees : list WorktreeInfo) (cleaned : Z) : M Z :=
  match worktrees with
  | [] => ret cleaned
  | wt :: rest =>
      if is_stale now stale_threshold_minutes wt then
        r <- try_ (remove_worktree (agent_id wt) true) ;;
        match r with
        | Returns _ => sweep now stale_threshold_minutes rest (cleaned + 1)
        | Raises _ => sweep now stale_threshold_minutes rest cleaned
        end
      else sweep now stale_threshold_minutes rest cleaned
  end.

(** [cleanup_stale_worktrees]; [now] is the clock reading taken first. *)
Definition cleanup_stale_worktrees `{Host} (now : Z)
    (stale_threshold_minutes : Z) : M Z :=
  worktrees <- list_worktrees ;;
  sweep now stale_threshold_minutes worktrees 0.

(** *** The staleness test with its roundings

    [timedelta.total_seconds()] divides an integer by an integer and
    [... / 60] a float by an integer; CPython gives for each the binary64
    number nearest to the exact quotient, halves going to the even
    mantissa.  A finite binary64 number is kept as [mant * 2 ^ expo].  The
    exponent range is not modelled: the quotients that the microsecond
    counts of [datetime] give lie far inside it. *)

Module Binary64.

Record double := mkDouble { mant : Z; expo : Z }.

(** The integer nearest to [n / d], for [0 < d]; a half goes to the even
    neighbour. *)
Definition nearest_even (n d : Z) : Z :=
  let q := (n / d)%Z in
  let r := (n mod d)%Z in
  if (2 * r <? d)%Z then q
  else if (d <? 2 * r)%Z then (q + 1)%Z
  else if Z.even q then q else (q + 1)%Z.

(** The [e] with [2 ^ e <= |p| / q < 2 ^ (e + 1)], for [p <> 0] and [0 < q]. *)
Definition floor_log2 (p q : Z) : Z :=
  let l := (Z.log2 (Z.abs p) - Z.log2 q)%Z in
  if (0 <=? l)%Z
  then (if (q * 2 ^ l <=? Z.abs p)%Z then l else (l - 1)%Z)
  else (if (q <=? Z.abs p * 2 ^ (- l))%Z then l else (l - 1)%Z).

(** The binary64 number nearest to [p / q], for [0 < q]: the quotient is
    rounded to 53 significant bits. *)
Definition round_ratio (p q : Z) : double :=
  let k := (floor_log2 p q - 52)%Z in
  if (0 <=? k)%Z then mkDouble (nearest_even p (q * 2 ^ k)) k
  else mkDouble (nearest_even (p * 2 ^ (- k)) q) k.

(** [x / n] for a float [x] and an integer [n > 0] that converts to a
    float without rounding, as [60] does. *)
Definition truediv_int (x : double) (n : Z) : double :=
  if (0 <=? expo x)%Z then round_ratio (mant x * 2 ^ expo x) n
  else round_ratio (mant x) (n * 2 ^ (- expo x)).

(** [x > n] for a float [x] and an integer [n]: Python compares the two
    numbers exactly. *)
Definition gt_int (x : double) (n : Z) : bool :=
  if (0 <=? expo x)%Z then (n <? mant x * 2 ^ expo x)%Z
  else (n * 2 ^ (- expo x) <? mant x)%Z.

(** [delta.total_seconds()] for a [timedelta] of [us] microseconds:
    [us / 10**6]. *)
Definition total_seconds (us : Z) : double := round_ratio us 1000000.

(** [inactive_minutes = (now - wt.last_active).total_seconds() / 60] *)
Definition inactive_minutes `{Host} (now : Z) (wt : WorktreeInfo) : double :=
  truediv_int (total_seconds (now - last_active wt)) 60.

(** [inactive_minutes > stale_threshold_minutes] *)
Definition is_stale `{Host} (now : Z) (stale_threshold_minutes : Z)
    (wt : WorktreeInfo) : bool :=
  gt_int (inactive_minutes now wt) stale_threshold_minutes.

(** The loop of [cleanup_stale_worktrees] with this test. *)
Fixpoint sweep `{Host} (now : Z) (stale_threshold_minutes : Z)
    (worktrees : list WorktreeInfo) (cleaned : Z) : M Z :=
  match worktrees with
  | [] => ret cleaned
  | wt :: rest =>
      if is_stale now stale_threshold_minutes wt then
        r <- try_ (remove_worktree (agent_id wt) true) ;;
        match r with
        | Returns _ => sweep now stale_threshold_minutes rest (cleaned + 1)
        | Raises _ => sweep now stale_threshold_minutes rest cleaned
        end
      else sweep now stale_threshold_minutes rest cleaned
  end.

(** [cleanup_stale_worktrees] with this test. *)
Definition cleanup_stale_worktrees `{Host} (now : Z)
    (stale_threshold_minutes : Z) : M Z :=
  worktrees <- list_worktrees ;;
  sweep now stale_threshold_minutes worktrees 0.

End Binary64.

(** The same two quotients by the Standard Library's specification of
    IEEE 754 division at 53 bits, to compare with on concrete inputs. *)
Module Reference.

Definition of_Z (n : Z) : spec_float :=
  match n with
  | Z0 => S754_zero false
  | Zpos p => S754_finite false p 0
  | Zneg p => S754_finite true p 0
  end.

(** [us / 10**6 / 60] *)
Definition minutes (us : Z) : spec_float :=
  SFdiv 53 1024 (SFdiv 53 1024 (of_Z us) (of_Z 1000000)) (of_Z 60).

(** Whether a [Binary64.double] and a finite [spec_float] are the same
    number. *)
Definition same (x : Binary64.double) (y : spec_float) : bool :=
  match y with
  | S754_zero _ => (Binary64.mant x =? 0)%Z
  | S754_finite s m e =>
      let lo := Z.min e (Binary64.expo x) in
      (Binary64.mant x * 2 ^ (Binary64.expo x - lo)
       =? (if s then Zneg m else Zpos m) * 2 ^ (e - lo))%Z
  | _ => false
  end.

Definition agrees (us : Z) : bool :=
  same (Binary64.truediv_int (Binary64.total_seconds us) 60) (minutes us).

End Reference.

(** *** Names for what the statements below talk about *)

(** The argument vector of [git worktree add] for an agent. *)
Definition add_cmd `{Host} (self : GitWorktreeManager) (a base_branch : string)
  : list string :=
  ["git"; "worktree"; "add";
   path_str (truediv (worktree_base_dir self) ("worktree-" ++ a)%string);
   "-b"; ("agent-" ++ a)%string; base_branch].

(** The argument vector of [git worktree remove] for a record. *)
Definition remove_cmd `{Host} (wt : WorktreeInfo) (force : bool) : list string :=
  if force then ["git"; "worktree"; "remove"; path_str (path wt); "--force"]
  else ["git"; "worktree"; "remove"; path_str (path wt)].

(** The argument vector of [git branch -D] for a record. *)
Definition branch_cmd `{Host} (wt : WorktreeInfo) : list string :=
  ["git"; "branch"; "-D"; branch wt].

(** The record that [create_worktree] stores for an agent at a clock reading. *)
Definition new_row `{Host} (self : GitWorktreeManager) (now : Z) (a : string) : Row :=
  mkRow a (path_str (truediv (worktree_base_dir self) ("worktree-" ++ a)%string))
        ("agent-" ++ a)%string now now "active".

(** The row [r] after [UPDATE ... SET last_active = now]. *)
Definition touched (now : Z) (r : Row) : Row :=
  mkRow (row_agent_id r) (row_path r) (row_branch r)
        (row_created_at r) now (row_status r).

(** The argument vector of the dry-run merge for a record. *)
Definition merge_cmd `{Host} (target_branch : string) (wt : WorktreeInfo)
  : list string :=
  ["git"; "merge-tree"; target_branch; branch wt].

(** The lines of a report that start with the phrase looked for. *)
Definition changed_in_both_lines (report : string) : list string :=
  filter (fun line => Py.startswith line "changed in both")
         (Py.split_on LF report).

(** The shape of every [ConflictFile] the parser builds. *)
Definition content_only (cf : ConflictFile) : Prop :=
  conflict_type cf = "content" /\ our_version cf = None
  /\ their_version cf = None /\ base_version cf = None.

(** Whether a row belongs to one of the agents in [removed]. *)
Definition mentions (removed : list string) (r : Row) : bool :=
  existsb (String.eqb (row_agent_id r)) removed.

(** The table without the rows of the agents in [removed]; the rows that
    stay are the same rows, in the same order. *)
Definition without (removed : list string) (rows : list Row) : list Row :=
  filter (fun r => negb (mentions removed r)) rows.

(** The forced [git worktree remove] of a row was run. *)
Definition attempted `{Host} (log : list call) (r : Row) : Prop :=
  exists result, In (remove_cmd (of_row r) true, result) log.

(** Both external steps for a row were run and returned zero. *)
Definition torn_down `{Host} (log : list call) (r : Row) : Prop :=
  exists r1 r2,
    In (remove_cmd (of_row r) true, r1) log
    /\ In (branch_cmd (of_row r), r2) log
    /\ returncode r1 = 0%Z /\ returncode r2 = 0%Z.

(** One of the two external steps for a row returned a nonzero code. *)
Definition failed `{Host} (log : list call) (r : Row) : Prop :=
  exists cmd result,
    In (cmd, result) log
    /\ (cmd = remove_cmd (of_row r) true \/ cmd = branch_cmd (of_row r))
    /\ returncode result <> 0%Z.

(** What a sweep over the rows [rs] has done between [w] and [w']:
    [removed] are the agents whose rows were deleted and [log] the external
    calls it made. *)
Definition swept `{Host} (now T : Z) (rs : list Row) (w : World)
    (removed : list string) (log : list call) (w' : World) : Prop :=
  db w' = without removed (db w)
  /\ calls w' = calls w ++ log
  /\ NoDup removed
  /\ (List.length (db w') + List.length removed = List.length (db w))%nat
  /\ (forall a, In a removed ->
        exists r, In r rs /\ row_agent_id r = a
                  /\ is_stale now T (of_row r) = true /\ torn_down log r)
  /\ (forall r, In r rs -> is_stale now T (of_row r) = true ->
        attempted log r /\ (~ In (row_agent_id r) removed -> failed log r)).

(** The [last_active] stored for an agent, if it has a row. *)
Definition stored_last_active `{Host} (a : string) (w : World) : option Z :=
  option_map row_last_active (select_one a (db w)).

(** A line for which the loop of [detect_conflicts] appends a
    [ConflictFile]: it starts with the phrase and has four tokens or more. *)
Definition qualifies (line : string) : bool :=
  Py.startswith line "changed in both"
  && (4 <=? List.length (Py.split line))%nat.

(** The characters of a string are all outside [str.isspace]. *)
Definition no_whitespace (s : string) : Prop :=
  forall c, In c (list_ascii_of_string s) -> Py.isspace c = false.

(** A listed record after a heartbeat of agent [a] at clock reading [now]. *)
Definition touched_info `{Host} (now : Z) (a : string) (wt : WorktreeInfo)
  : WorktreeInfo :=
  if String.eqb (agent_id wt) a
  then mkWorktreeInfo (agent_id wt) (path wt) (branch wt) (created_at wt)
                      now (status wt)
  else wt.

(** The listing is newest first. *)
Definition newest_first `{Host} (l : list WorktreeInfo) : Prop :=
  Sorted.StronglySorted (fun x y => (created_at y <= created_at x)%Z) l.

(** One call of a public method, with the clock reading it takes. *)
Inductive command :=
| CreateWorktree (now : Z) (a base_branch : string)
| RemoveWorktree (a : string) (force : bool)
| ListWorktrees
| DetectConflicts (a target_branch : string)
| UpdateLastActive (now : Z) (a : string)
| CleanupStale (now : Z) (stale_threshold_minutes : Z).

(** The world a call leaves, whether it returned or raised. *)
Definition after `{Host} (self : GitWorktreeManager) (c : command) (w : World)
  : World :=
  match c with
  | CreateWorktree now a base_branch =>
      snd (create_worktree self now a base_branch w)
  | RemoveWorktree a force => snd (remove_worktree a force w)
  | ListWorktrees => snd (list_worktrees w)
  | DetectConflicts a target_branch => snd (detect_conflicts a target_branch w)
  | UpdateLastActive now a => snd (update_last_active now a w)
  | CleanupStale now T => snd (cleanup_stale_worktrees now T w)
  end.

(** The world after a sequence of calls on one manager. *)
Definition after_all `{Host} (self : GitWorktreeManager) (cs : list command)
    (w : World) : World :=
  fold_left (fun w c => after self c w) cs w.

(** A row as [create_worktree] of this manager writes it: path and branch
    derived from the [agent_id], status ["active"]. *)
Definition row_ok `{Host} (self : GitWorktreeManager) (r : Row) : Prop :=
  row_path r
  = path_str (truediv (worktree_base_dir self)
                      ("worktree-" ++ row_agent_id r)%string)
  /\ row_branch r = ("agent-" ++ row_agent_id r)%string
  /\ row_status r = "active".

(** One row per agent, each as [create_worktree] writes it. *)
Definition registry_ok `{Host} (self : GitWorktreeManager) (rows : list Row)
  : Prop :=
  NoDup (map row_agent_id rows) /\ Forall (row_ok self) rows.

(** ** A small host for concrete scenarios

    POSIX-style paths kept as their text, and a [git] that knows a set of
    branches, a set of worktree paths and a fixed answer to [merge-tree]. *)

Module Sim.

Record repo_state := mkRepo {
  branches : list string;
  worktrees : list string;
  merge_report : CompletedProcess
}.

Definition mem (x : string) (xs : list string) : bool :=
  existsb (String.eqb x) xs.

Definition drop (x : string) (xs : list string) : list string :=
  filter (fun y => negb (String.eqb x y)) xs.

Definition ok : CompletedProcess := mkCompleted 0 "" "".

Definition fatal (msg : string) : CompletedProcess := mkCompleted 128 "" msg.

Definition worktree_add (g : repo_state) (p br base : string)
  : repo_state * CompletedProcess :=
  if negb (mem base (branches g)) then (g, fatal "fatal: invalid reference")
  else if mem br (branches g) then (g, fatal "fatal: a branch with that name already exists")
  else if mem p (worktrees g) then (g, fatal "fatal: path already exists")
  else (mkRepo (br :: branches g) (p :: worktrees g) (merge_report g), ok).

Definition worktree_remove (g : repo_state) (p : string)
  : repo_state * CompletedProcess :=
  if mem p (worktrees g)
  then (mkRepo (branches g) (drop p (worktrees g)) (merge_report g), ok)
  else (g, fatal "fatal: not a working tree").

Definition branch_delete (g : repo_state) (br : string)
  : repo_state * CompletedProcess :=
  if mem br (branches g)
  then (mkRepo (drop br (branches g)) (worktrees g) (merge_report g), ok)
  else (g, mkCompleted 1 "" "error: branch not found.").

Definition usage : CompletedProcess := mkCompleted 129 "" "usage: git ...".

Definition git (g : repo_state) (argv : list string)
  : repo_state * CompletedProcess :=
  match argv with
  | [_; c1; c2; p; _; br; base] =>
      if String.eqb c1 "worktree" && String.eqb c2 "add"
      then worktree_add g p br base else (g, usage)
  | [_; c1; c2; p; _] =>
      if String.eqb c1 "worktree" && String.eqb c2 "remove"
      then worktree_remove g p else (g, usage)
  | [_; c1; c2; x] =>
      if String.eqb c1 "worktree" && String.eqb c2 "remove"
      then worktree_remove g x
      else if String.eqb c1 "branch" && String.eqb c2 "-D"
      then branch_delete g x
      else if String.eqb c1 "merge-tree" then (g, merge_report g)
      else (g, usage)
  | _ => (g, usage)
  end.

#[export] Instance host : Host := {|
  Path := string;
  truediv := fun p name => (p ++ "/" ++ name)%string;
  path_str := fun p => p;
  Path_of := fun s => s;
  Path_of_str := fun p => eq_refl;
  Repo := repo_state;
  run_git := git
|}.

Definition manager : GitWorktreeManager := mkManager "/srv/worktrees".

(** A repository with one branch and nothing checked out beside it. *)
Definition fresh (report : CompletedProcess) : World :=
  mkWorld [] (mkRepo ["main"] [] report) [].

(** The world after [create_worktree("a1")] at clock reading [t]. *)
Definition with_a1 (t : Z) (report : CompletedProcess) : World :=
  snd (create_worktree manager t "a1" "main" (fresh report)).

(** 2025-12-27T09:00:00+00:00, in microseconds since the epoch. *)
Definition morning : Z := 1766826000000000.

(** A line break as a string. *)
Definition nl : string := String LF EmptyString.

(** A report that flags one file: nonzero code, marker and phrase. *)
Definition report_conflict : CompletedProcess :=
  mkCompleted 1
    ("CONFLICT (content): Merge conflict in src/a.txt" ++ nl
     ++ "changed in both   src/a.txt" ++ nl)%string
    "".

(** The phrase with a path, a zero code and no marker anywhere. *)
Definition report_unflagged : CompletedProcess :=
  mkCompleted 0 "changed in both src/a.txt" "".

(** The phrase alone on its line, the path on the lines after it. *)
Definition report_bare_phrase : CompletedProcess :=
  mkCompleted 1
    ("changed in both" ++ nl ++ "  base   100644 5716ca5 a.txt" ++ nl)%string
    "".

(** The row of agent [a], last active at [t]. *)
Definition row_of (a : string) (t : Z) : Row :=
  mkRow a ("/srv/worktrees/worktree-" ++ a)%string ("agent-" ++ a)%string
        morning t "active".

(** Three agents at 12:00: [a1] and [a2] were last active at 09:00, [a3]
    at 11:30; the worktree of [a2] is already gone from the repository. *)
Definition three_agents : World :=
  mkWorld
    [row_of "a1" morning; row_of "a2" morning;
     row_of "a3" (morning + 150 * MINUTE)]
    (mkRepo ["main"; "agent-a1"; "agent-a2"; "agent-a3"]
            ["/srv/worktrees/worktree-a1"; "/srv/worktrees/worktree-a3"] ok)
    [].

Definition noon : Z := morning + 180 * MINUTE.

(** The three agents with all three worktrees still in the repository. *)
Definition three_present : World :=
  mkWorld
    [row_of "a1" morning; row_of "a2" morning;
     row_of "a3" (morning + 150 * MINUTE)]
    (mkRepo ["main"; "agent-a1"; "agent-a2"; "agent-a3"]
            ["/srv/worktrees/worktree-a1"; "/srv/worktrees/worktree-a2";
             "/srv/worktrees/worktree-a3"] ok)
    [].

(** A threshold of 300000000 minutes, about 570 years. *)
Definition long_threshold : Z := 300000000.

(** The clock reading of the row of [long_idle]: one microsecond more than
    the long threshold before noon, in the year 1455. *)
Definition long_ago : Z := noon - (long_threshold * MINUTE + 1).


End Sim.

(** ** Facts about the table *)

Ltac conjs := repeat match goal with |- _ /\ _ => split end.

Lemma select_one_key (a : string) (rows : list Row) (r : Row) :
  select_one a rows = Some r -> row_agent_id r = a.
Proof.
  intros Hsel. apply find_some in Hsel. destruct Hsel as [_ Heq].
  now apply String.eqb_eq in Heq.
Qed.

Lemma select_one_In (a : string) (rows : list Row) (r : Row) :
  select_one a rows = Some r -> In r rows.
Proof. intros Hsel. now apply find_some in Hsel. Qed.

Lemma select_one_None (a : string) (rows : list Row) :
  select_one a rows = None <-> (forall r, In r rows -> row_agent_id r <> a).
Proof.
  split.
  - intros Hnone r Hin Heq.
    pose proof (find_none _ _ Hnone r Hin) as Hf. cbn in Hf.
    rewrite Heq, String.eqb_refl in Hf. discriminate.
  - intros Hall. induction rows as [|x xs IH]; [reflexivity|].
    cbn. destruct (String.eqb (row_agent_id x) a) eqn:E.
    + apply String.eqb_eq in E. exfalso. apply (Hall x); [now left | exact E].
    + apply IH. intros r Hin. apply Hall. now right.
Qed.

Lemma select_one_app_new (a : string) (rows : list Row) (r : Row) :
  select_one a rows = None -> row_agent_id r = a ->
  select_one a (rows ++ [r]) = Some r.
Proof.
  intros Hnone Hkey. induction rows as [|x xs IH]; cbn in *.
  - now rewrite Hkey, String.eqb_refl.
  - destruct (String.eqb (row_agent_id x) a); [discriminate | now apply IH].
Qed.

Lemma select_one_delete (a : string) (rows : list Row) :
  select_one a (delete_rows a rows) = None.
Proof.
  apply select_one_None. intros r Hin Heq.
  apply filter_In in Hin. destruct Hin as [_ Hneq].
  rewrite Heq, String.eqb_refl in Hneq. discriminate.
Qed.

Lemma select_one_unique (a : string) (rows : list Row) (r : Row) :
  NoDup (map row_agent_id rows) -> In r rows -> row_agent_id r = a ->
  select_one a rows = Some r.
Proof.
  induction rows as [|x xs IH]; intros Hnd Hin Hkey; [contradiction|].
  cbn in *. inversion Hnd as [|? ? Hnotin Hnd']; subst.
  destruct Hin as [-> | Hin].
  - now rewrite String.eqb_refl.
  - destruct (String.eqb (row_agent_id x) (row_agent_id r)) eqn:E.
    + apply String.eqb_eq in E. exfalso. apply Hnotin. rewrite E.
      now apply in_map.
    + now apply IH.
Qed.

Lemma insert_desc_perm (r : Row) (rows : list Row) :
  Permutation (insert_desc r rows) (r :: rows).
Proof.
  induction rows as [|x xs IH]; cbn; [reflexivity|].
  destruct (row_created_at x <=? row_created_at r)%Z; [reflexivity|].
  rewrite IH. apply perm_swap.
Qed.

Lemma order_by_perm (rows : list Row) :
  Permutation (order_by_created_at_desc rows) rows.
Proof.
  induction rows as [|x xs IH]; cbn; [reflexivity|].
  rewrite insert_desc_perm. now constructor.
Qed.

Lemma order_by_In (rows : list Row) (r : Row) :
  In r (order_by_created_at_desc rows) <-> In r rows.
Proof.
  split; apply Permutation_in;
    [apply order_by_perm | apply Permutation_sym, order_by_perm].
Qed.

Lemma world_eta `{Host} (w : World) : mkWorld (db w) (repo w) (calls w) = w.
Proof. now destruct w. Qed.

(** ** The lifecycle operations *)

Section Lifecycle.

Context `{Host}.

Lemma create_worktree_existing self now a base_branch w r :
  select_one a (db w) = Some r ->
  create_worktree self now a base_branch w
  = (Raises (ValueError (already_exists_msg a (of_row r))), w).
Proof.
  intros Hsel. unfold create_worktree, bind, _get_worktree.
  now rewrite Hsel.
Qed.

Lemma create_worktree_run self now a base_branch w :
  select_one a (db w) = None ->
  create_worktree self now a base_branch w
  = let cmd := add_cmd self a base_branch in
    let (g, result) := run_git (repo w) cmd in
    let log := calls w ++ [(cmd, result)] in
    if (returncode result =? 0)%Z
    then (Returns (truediv (worktree_base_dir self) ("worktree-" ++ a)%string),
          mkWorld (db w ++ [new_row self now a]) g log)
    else (Raises (CalledProcessError (returncode result) cmd
                                     (stdout result) (stderr result)),
          mkWorld (db w) g log).
Proof.
  intros Hsel.
  unfold create_worktree, bind, _get_worktree, subprocess_run, sql_insert,
    insert_row, ret, add_cmd, new_row.
  rewrite Hsel. cbn.
  destruct (run_git (repo w) _) as [g result]. cbn.
  destruct (returncode result =? 0)%Z; cbn; [|reflexivity].
  unfold select_one in Hsel. now rewrite Hsel.
Qed.

Lemma remove_worktree_run a force w r :
  select_one a (db w) = Some r ->
  remove_worktree a force w
  = let wt := of_row r in
    let (g1, r1) := run_git (repo w) (remove_cmd wt force) in
    let log1 := calls w ++ [(remove_cmd wt force, r1)] in
    if (returncode r1 =? 0)%Z then
      let (g2, r2) := run_git g1 (branch_cmd wt) in
      let log2 := log1 ++ [(branch_cmd wt, r2)] in
      if (returncode r2 =? 0)%Z
      then (Returns tt, mkWorld (delete_rows a (db w)) g2 log2)
      else (Raises (CalledProcessError (returncode r2) (branch_cmd wt)
                                       (stdout r2) (stderr r2)),
            mkWorld (db w) g2 log2)
    else (Raises (CalledProcessError (returncode r1) (remove_cmd wt force)
                                     (stdout r1) (stderr r1)),
          mkWorld (db w) g1 log1).
Proof.
  intros Hsel.
  unfold remove_worktree, bind, _get_worktree, subprocess_run, sql_delete,
    remove_cmd, branch_cmd.
  rewrite Hsel. cbn.
  destruct force; cbn;
    destruct (run_git (repo w) _) as [g1 r1]; cbn;
    destruct (returncode r1 =? 0)%Z; cbn; try reflexivity;
    destruct (run_git g1 _) as [g2 r2]; cbn;
    destruct (returncode r2 =? 0)%Z; reflexivity.
Qed.

(** C9. [remove_worktree] on an agent without a record raises the
    "does not exist" [ValueError] and leaves the whole world as it was:
    the table, the external repository and the log of external calls. *)
Theorem remove_worktree_unknown (a : string) (force : bool) (w : World) :
  select_one a (db w) = None ->
  remove_worktree a force w = (Raises (ValueError (does_not_exist_msg a)), w).
Proof.
  intros Hsel. unfold remove_worktree, bind, _get_worktree.
  now rewrite Hsel.
Qed.

(** C7. After a [create_worktree] that returned, a second
    [create_worktree] for the same agent raises the "already exists"
    [ValueError], naming the stored path, and the world after it is the
    world before it: no row written, no external call logged, the external
    repository untouched. *)
Theorem create_worktree_twice (self : GitWorktreeManager) (t1 t2 : Z)
    (a base1 base2 : string) (w w1 : World) (p : Path) :
  create_worktree self t1 a base1 w = (Returns p, w1) ->
  create_worktree self t2 a base2 w1
  = (Raises (ValueError (already_exists_msg a
               (mkWorktreeInfo a p ("agent-" ++ a)%string t1 t1 "active"))), w1).
Proof.
  intros Hfirst.
  destruct (select_one a (db w)) as [r|] eqn:Hsel.
  - rewrite (create_worktree_existing _ _ _ _ _ _ Hsel) in Hfirst. discriminate.
  - rewrite (create_worktree_run _ _ _ _ _ Hsel) in Hfirst. cbn zeta in Hfirst.
    destruct (run_git (repo w) _) as [g result].
    destruct (returncode result =? 0)%Z; [|discriminate].
    injection Hfirst as <- <-.
    rewrite (create_worktree_existing self t2 a base2 _ (new_row self t1 a)).
    + unfold of_row, new_row. cbn. now rewrite Path_of_str.
    + cbn. now apply select_one_app_new.
Qed.

(** C5. When there is no record for the agent and [git worktree add]
    returns a nonzero code, [create_worktree] raises the
    [CalledProcessError] that carries that code, the command and the
    captured output and diagnostic text, and the table is the one from
    before the call. *)
Theorem create_worktree_git_failure (self : GitWorktreeManager) (now : Z)
    (a base_branch : string) (w : World) :
  select_one a (db w) = None ->
  returncode (snd (run_git (repo w) (add_cmd self a base_branch))) <> 0%Z ->
  exists w',
    create_worktree self now a base_branch w
    = (let result := snd (run_git (repo w) (add_cmd self a base_branch)) in
       Raises (CalledProcessError (returncode result)
                 (add_cmd self a base_branch) (stdout result) (stderr result)),
       w')
    /\ db w' = db w.
Proof.
  intros Hsel Hfail.
  rewrite (create_worktree_run _ _ _ _ _ Hsel). cbn zeta.
  destruct (run_git (repo w) _) as [g result]. cbn in *.
  apply Z.eqb_neq in Hfail. rewrite Hfail.
  eexists. split; reflexivity.
Qed.

(** C8. When there is no record for the agent and [git worktree add]
    returns zero, [create_worktree] returns
    [worktree_base_dir / ("worktree-" + agent_id)], and in the world it
    leaves both [_get_worktree] and [list_worktrees] give the record with
    that path, branch ["agent-" + agent_id], status ["active"] and
    [created_at] equal to [last_active]. *)
Theorem create_worktree_record (self : GitWorktreeManager) (now : Z)
    (a base_branch : string) (w : World) :
  select_one a (db w) = None ->
  returncode (snd (run_git (repo w) (add_cmd self a base_branch))) = 0%Z ->
  exists w',
    let p := truediv (worktree_base_dir self) ("worktree-" ++ a)%string in
    let wt := mkWorktreeInfo a p ("agent-" ++ a)%string now now "active" in
    create_worktree self now a base_branch w = (Returns p, w')
    /\ _get_worktree a w' = (Returns (Some wt), w')
    /\ (exists l, list_worktrees w' = (Returns l, w') /\ In wt l)
    /\ status wt = "active" /\ created_at wt = last_active wt.
Proof.
  intros Hsel Hok.
  rewrite (create_worktree_run _ _ _ _ _ Hsel). cbn zeta.
  destruct (run_git (repo w) _) as [g result]. cbn in Hok.
  rewrite Hok. eexists. split; [reflexivity|].
  assert (Hrow : of_row (new_row self now a)
                 = mkWorktreeInfo a
                     (truediv (worktree_base_dir self) ("worktree-" ++ a)%string)
                     ("agent-" ++ a)%string now now "active").
  { unfold of_row, new_row. cbn. now rewrite Path_of_str. }
  repeat split.
  - unfold _get_worktree. cbn [db].
    rewrite (select_one_app_new a (db w) (new_row self now a) Hsel eq_refl).
    cbn [option_map]. now rewrite Hrow.
  - eexists. split; [reflexivity|]. cbn [db]. rewrite <- Hrow.
    apply in_map. apply order_by_In. apply in_or_app. right. now left.
Qed.

(** C6. For an agent with a record, [remove_worktree] returns exactly
    when both [git worktree remove] and [git branch -D] return zero, and
    then the row is deleted: [_get_worktree] gives [None] and no listed
    record has that [agent_id].  Otherwise it raises the
    [CalledProcessError] of the last logged call, whose code is nonzero,
    and the table is unchanged, so the record is still found. *)
Theorem remove_worktree_record (a : string) (force : bool) (w : World) (r : Row) :
  select_one a (db w) = Some r ->
  let wt := of_row r in
  match remove_worktree a force w with
  | (Returns _, w') =>
      (exists r1 r2,
          calls w' = calls w ++ [(remove_cmd wt force, r1); (branch_cmd wt, r2)]
          /\ returncode r1 = 0%Z /\ returncode r2 = 0%Z)
      /\ db w' = delete_rows a (db w)
      /\ _get_worktree a w' = (Returns None, w')
      /\ (exists l, list_worktrees w' = (Returns l, w')
                    /\ forall x, In x l -> agent_id x <> a)
  | (Raises e, w') =>
      (exists earlier cmd result,
          calls w' = calls w ++ earlier ++ [(cmd, result)]
          /\ returncode result <> 0%Z
          /\ e = CalledProcessError (returncode result) cmd
                                    (stdout result) (stderr result))
      /\ db w' = db w
      /\ _get_worktree a w' = (Returns (Some wt), w')
  end.
Proof.
  intros Hsel wt. rewrite (remove_worktree_run _ _ _ _ Hsel). cbn zeta.
  fold wt.
  destruct (run_git (repo w) (remove_cmd wt force)) as [g1 r1].
  destruct (returncode r1 =? 0)%Z eqn:E1.
  - destruct (run_git g1 (branch_cmd wt)) as [g2 r2].
    destruct (returncode r2 =? 0)%Z eqn:E2.
    + apply Z.eqb_eq in E1, E2. repeat split.
      * exists r1, r2. cbn [calls]. rewrite <- app_assoc. now repeat split.
      * unfold _get_worktree. cbn [db]. now rewrite select_one_delete.
      * eexists. split; [reflexivity|]. cbn [db]. intros x Hin Hkey.
        apply in_map_iff in Hin. destruct Hin as (row & <- & Hin).
        apply order_by_In, filter_In in Hin. destruct Hin as [_ Hneq].
        cbn in Hkey. rewrite Hkey, String.eqb_refl in Hneq. discriminate.
    + apply Z.eqb_neq in E2. repeat split.
      * exists [(remove_cmd wt force, r1)], (branch_cmd wt), r2.
        cbn [calls]. rewrite <- app_assoc. now repeat split.
      * unfold _get_worktree. cbn [db]. now rewrite Hsel.
  - apply Z.eqb_neq in E1. repeat split.
    + exists [], (remove_cmd wt force), r1. now repeat split.
    + unfold _get_worktree. cbn [db]. now rewrite Hsel.
Qed.

Lemma select_one_set_last_active now a b rows :
  select_one b (set_last_active now a rows)
  = option_map (fun r => if String.eqb (row_agent_id r) a then touched now r else r)
               (select_one b rows).
Proof.
  induction rows as [|x xs IH]; [reflexivity|].
  cbn. destruct (String.eqb (row_agent_id x) a) eqn:Ea; cbn;
    destruct (String.eqb (row_agent_id x) b) eqn:Eb; cbn;
    try rewrite Ea; try reflexivity; apply IH.
Qed.

Lemma set_last_active_unknown now a rows :
  select_one a rows = None -> set_last_active now a rows = rows.
Proof.
  intros Hnone. induction rows as [|x xs IH]; [reflexivity|].
  cbn in *. destruct (String.eqb (row_agent_id x) a); [discriminate|].
  f_equal. now apply IH.
Qed.

(** C3, as the code has it. [update_last_active] never raises and makes
    no external call.  For an agent with a record it stores the clock
    reading of the call as [last_active] and changes nothing else in the
    row, so the stored timestamp strictly increases exactly when that
    reading is later than the stored one; the records of other agents are
    found as before.  For an unknown agent the world is unchanged. *)
Theorem update_last_active_effect (now : Z) (a : string) (w : World) :
  exists w',
    update_last_active now a w = (Returns tt, w')
    /\ repo w' = repo w /\ calls w' = calls w
    /\ (forall b, b <> a -> select_one b (db w') = select_one b (db w))
    /\ match select_one a (db w) with
       | Some r =>
           select_one a (db w') = Some (touched now r)
           /\ row_last_active (touched now r) = now
           /\ (row_last_active r < row_last_active (touched now r)
               <-> row_last_active r < now)%Z
       | None => w' = w
       end.
Proof.
  eexists. split; [reflexivity|]. cbn [repo calls db]. repeat split.
  - intros b Hneq. rewrite select_one_set_last_active.
    destruct (select_one b (db w)) as [r|] eqn:Hb; [|reflexivity].
    cbn. apply select_one_key in Hb.
    destruct (String.eqb (row_agent_id r) a) eqn:E; [|reflexivity].
    apply String.eqb_eq in E. congruence.
  - destruct (select_one a (db w)) as [r|] eqn:Ha.
    + rewrite select_one_set_last_active, Ha. cbn.
      apply select_one_key in Ha. rewrite Ha, String.eqb_refl.
      now repeat split.
    + rewrite (set_last_active_unknown _ _ _ Ha). apply world_eta.
Qed.

End Lifecycle.

(** ** Conflict detection *)

Section Conflicts.

Context `{Host}.

Lemma scan_lines_flat_map lines acc :
  scan_lines lines acc = acc ++ flat_map scan_line lines.
Proof.
  unfold scan_lines. revert acc.
  induction lines as [|l ls IH]; intros acc; cbn.
  - now rewrite app_nil_r.
  - rewrite IH. now rewrite <- app_assoc.
Qed.

Lemma scan_line_other line :
  Py.startswith line "changed in both" = false -> scan_line line = [].
Proof. intros Hno. unfold scan_line. now rewrite Hno. Qed.

Lemma flat_map_scan_filter lines :
  flat_map scan_line lines
  = flat_map scan_line
      (filter (fun line => Py.startswith line "changed in both") lines).
Proof.
  induction lines as [|l ls IH]; [reflexivity|].
  cbn [flat_map filter].
  destruct (Py.startswith l "changed in both") eqn:E.
  - cbn [flat_map]. now rewrite IH.
  - now rewrite (scan_line_other _ E).
Qed.

Lemma scan_line_content_only line : Forall content_only (scan_line line).
Proof.
  unfold scan_line.
  destruct (Py.startswith line "changed in both"); [|constructor].
  destruct (4 <=? List.length (Py.split line))%nat; constructor;
    [now repeat split | constructor].
Qed.

Lemma parse_report_content_only result : Forall content_only (parse_report result).
Proof.
  unfold parse_report. destruct (has_conflicts result); [|constructor].
  rewrite scan_lines_flat_map. cbn [app].
  induction (Py.split_on LF (stdout result)) as [|l ls IH]; cbn [flat_map].
  - constructor.
  - apply Forall_app. split; [apply scan_line_content_only | exact IH].
Qed.

Lemma detect_conflicts_run a target_branch w r :
  select_one a (db w) = Some r ->
  detect_conflicts a target_branch w
  = let cmd := merge_cmd target_branch (of_row r) in
    let (g, result) := run_git (repo w) cmd in
    (Returns (parse_report result),
     mkWorld (db w) g (calls w ++ [(cmd, result)])).
Proof.
  intros Hsel.
  unfold detect_conflicts, bind, _get_worktree, subprocess_run, ret, merge_cmd.
  rewrite Hsel. cbn.
  now destruct (run_git (repo w) _) as [g result].
Qed.

Lemma detect_conflicts_unknown a target_branch w :
  select_one a (db w) = None ->
  detect_conflicts a target_branch w
  = (Raises (ValueError (does_not_exist_msg a)), w).
Proof.
  intros Hsel. unfold detect_conflicts, bind, _get_worktree.
  now rewrite Hsel.
Qed.

(** C1, as the code has it. For an agent with a record: when the dry-run
    merge returns a nonzero code or its report contains ["conflict"] in
    any letter case, and exactly one line of the report starts with
    ["changed in both"], and that line has at least four
    whitespace-delimited tokens of which the last is [p], then
    [detect_conflicts] returns exactly one [ConflictFile], with path [p],
    conflict type ["content"] and no version identifiers; the table is
    not written. *)
Theorem detect_conflicts_one_line (a target_branch : string) (w : World)
    (r : Row) (line p : string) :
  select_one a (db w) = Some r ->
  let result := snd (run_git (repo w) (merge_cmd target_branch (of_row r))) in
  has_conflicts result = true ->
  changed_in_both_lines (stdout result) = [line] ->
  (4 <= List.length (Py.split line))%nat ->
  Py.last_item (Py.split line) = p ->
  exists w',
    detect_conflicts a target_branch w
    = (Returns [mkConflictFile p "content" None None None], w')
    /\ db w' = db w.
Proof.
  intros Hsel result Hhas Hone Hlen Hlast.
  rewrite (detect_conflicts_run _ _ _ _ Hsel). cbn zeta.
  subst result. destruct (run_git (repo w) _) as [g res]. cbn [snd] in *.
  eexists. split; [apply (f_equal2 pair); [apply f_equal | reflexivity]
                  | reflexivity].
  unfold parse_report. rewrite Hhas, scan_lines_flat_map. cbn [app].
  rewrite flat_map_scan_filter. fold (changed_in_both_lines (stdout res)).
  rewrite Hone. cbn [flat_map]. rewrite app_nil_r.
  assert (Hstart : Py.startswith line "changed in both" = true).
  { assert (Hin : In line (changed_in_both_lines (stdout res)))
      by (rewrite Hone; now left).
    apply filter_In in Hin. tauto. }
  unfold scan_line. rewrite Hstart.
  apply Nat.leb_le in Hlen. rewrite Hlen. now rewrite Hlast.
Qed.

(** C4. For an agent with a record, the guard of [detect_conflicts]
    holds if and only if the dry-run merge returned a nonzero code or its
    report, lower-cased, contains ["conflict"]; the report is scanned
    only under that guard, and when the code is zero and the marker is
    absent [detect_conflicts] returns the empty list. *)
Theorem detect_conflicts_classification (a target_branch : string)
    (w : World) (r : Row) :
  select_one a (db w) = Some r ->
  let result := snd (run_git (repo w) (merge_cmd target_branch (of_row r))) in
  (has_conflicts result = true
   <-> returncode result <> 0%Z
       \/ Py.contains (Py.lower (stdout result)) "conflict" = true)
  /\ exists w',
      detect_conflicts a target_branch w
      = (Returns (if has_conflicts result
                  then scan_lines (Py.split_on LF (stdout result)) []
                  else []), w')
      /\ (returncode result = 0%Z ->
          Py.contains (Py.lower (stdout result)) "conflict" = false ->
          detect_conflicts a target_branch w = (Returns [], w')).
Proof.
  intros Hsel result.
  assert (Hguard : has_conflicts result = true
                   <-> returncode result <> 0%Z
                       \/ Py.contains (Py.lower (stdout result)) "conflict" = true).
  { unfold has_conflicts. rewrite orb_true_iff, negb_true_iff, Z.eqb_neq.
    reflexivity. }
  split; [exact Hguard|].
  rewrite (detect_conflicts_run _ _ _ _ Hsel). cbn zeta.
  subst result. destruct (run_git (repo w) _) as [g res]. cbn [snd] in *.
  eexists. split; [reflexivity|].
  intros Hzero Hnomark. unfold parse_report.
  destruct (has_conflicts res); [|reflexivity].
  destruct (proj1 Hguard eq_refl) as [E | E]; [contradiction | congruence].
Qed.

(** C10. Whatever [detect_conflicts] returns, every [ConflictFile] in it
    has conflict type ["content"] and [None] for [our_version],
    [their_version] and [base_version]. *)
Theorem detect_conflicts_content_only (a target_branch : string) (w : World) :
  match detect_conflicts a target_branch w with
  | (Returns conflicts, _) => Forall content_only conflicts
  | (Raises _, _) => True
  end.
Proof.
  destruct (select_one a (db w)) as [r|] eqn:Hsel.
  - rewrite (detect_conflicts_run _ _ _ _ Hsel). cbn zeta.
    destruct (run_git (repo w) _) as [g res].
    apply parse_report_content_only.
  - now rewrite (detect_conflicts_unknown _ _ _ Hsel).
Qed.

End Conflicts.

(** ** The staleness sweep *)

Section Sweep.

Context `{Host}.

Lemma attempted_app pre post r :
  attempted pre r \/ attempted post r -> attempted (pre ++ post) r.
Proof.
  intros [[x Hx] | [x Hx]]; exists x; apply in_or_app; [now left | now right].
Qed.

Lemma torn_down_app pre post r :
  torn_down pre r \/ torn_down post r -> torn_down (pre ++ post) r.
Proof.
  intros [(r1 & r2 & H1 & H2 & Hz) | (r1 & r2 & H1 & H2 & Hz)];
    exists r1, r2; (split; [|split]); try exact Hz;
    apply in_or_app; auto.
Qed.

Lemma failed_app pre post r :
  failed pre r \/ failed post r -> failed (pre ++ post) r.
Proof.
  intros [(c & x & Hin & Hrest) | (c & x & Hin & Hrest)];
    exists c, x; (split; [|exact Hrest]); apply in_or_app; auto.
Qed.

Lemma without_nil rows : without [] rows = rows.
Proof.
  unfold without, mentions. induction rows as [|x xs IH]; [reflexivity|].
  cbn. now f_equal.
Qed.

Lemma without_cons a removed rows :
  without (a :: removed) rows = without removed (delete_rows a rows).
Proof.
  unfold without, mentions, delete_rows.
  induction rows as [|x xs IH]; [reflexivity|].
  cbn. destruct (String.eqb (row_agent_id x) a); cbn; [exact IH|].
  destruct (existsb _ removed); cbn; [exact IH | f_equal; exact IH].
Qed.

Lemma delete_rows_keys a rows :
  NoDup (map row_agent_id rows) -> NoDup (map row_agent_id (delete_rows a rows)).
Proof.
  induction rows as [|x xs IH]; intros Hnd; [constructor|].
  cbn in *. inversion Hnd as [|? ? Hnotin Hnd']; subst.
  destruct (String.eqb (row_agent_id x) a); cbn; [now apply IH|].
  constructor; [|now apply IH].
  intros Hin. apply Hnotin. apply in_map_iff in Hin.
  destruct Hin as (y & Hkey & Hy). apply filter_In in Hy.
  rewrite <- Hkey. apply in_map. tauto.
Qed.

Lemma delete_rows_absent a rows :
  (forall r, In r rows -> row_agent_id r <> a) -> delete_rows a rows = rows.
Proof.
  induction rows as [|x xs IH]; intros Hall; [reflexivity|].
  cbn. destruct (String.eqb (row_agent_id x) a) eqn:E.
  - apply String.eqb_eq in E. exfalso. apply (Hall x); [now left | exact E].
  - cbn. f_equal. apply IH. intros r Hin. apply Hall. now right.
Qed.

Lemma delete_rows_length r rows :
  NoDup (map row_agent_id rows) -> In r rows ->
  S (List.length (delete_rows (row_agent_id r) rows)) = List.length rows.
Proof.
  induction rows as [|x xs IH]; intros Hnd Hin; [contradiction|].
  cbn in *. inversion Hnd as [|? ? Hnotin Hnd']; subst.
  destruct Hin as [-> | Hin].
  - rewrite String.eqb_refl. cbn. f_equal.
    change (filter _ xs) with (delete_rows (row_agent_id r) xs).
    rewrite delete_rows_absent; [reflexivity|].
    intros y Hy Heq. apply Hnotin. rewrite <- Heq. now apply in_map.
  - destruct (String.eqb (row_agent_id x) (row_agent_id r)) eqn:E.
    + apply String.eqb_eq in E. exfalso. apply Hnotin. rewrite E.
      now apply in_map.
    + cbn. f_equal. now apply IH.
Qed.

Lemma same_key_same_row rows r1 r2 :
  NoDup (map row_agent_id rows) -> In r1 rows -> In r2 rows ->
  row_agent_id r1 = row_agent_id r2 -> r1 = r2.
Proof.
  intros Hnd H1 H2 Hkey.
  pose proof (select_one_unique _ _ _ Hnd H1 Hkey) as E1.
  pose proof (select_one_unique _ _ _ Hnd H2 eq_refl) as E2.
  congruence.
Qed.

Lemma swept_nil now T w : swept now T [] w [] [] w.
Proof.
  unfold swept. rewrite without_nil, app_nil_r. cbn. conjs;
    try reflexivity; try constructor; try lia; intros; contradiction.
Qed.

Lemma swept_skip now T r rs w removed log w' :
  is_stale now T (of_row r) = false ->
  swept now T rs w removed log w' ->
  swept now T (r :: rs) w removed log w'.
Proof.
  intros Hfresh (Hdb & Hlog & Hnd & Hlen & Hrem & Hst).
  unfold swept. conjs; try assumption.
  - intros a Ha. destruct (Hrem a Ha) as (x & Hx & Hrest).
    exists x. split; [now right | exact Hrest].
  - intros x [<- | Hin] Hx; [congruence | now apply Hst].
Qed.

Lemma swept_failure now T r rs w w1 pre removed log w' :
  db w1 = db w -> calls w1 = calls w ++ pre ->
  attempted pre r -> failed pre r ->
  swept now T rs w1 removed log w' ->
  swept now T (r :: rs) w removed (pre ++ log) w'.
Proof.
  intros Hdb1 Hlog1 Hatt Hfail (Hdb & Hlog & Hnd & Hlen & Hrem & Hst).
  rewrite Hdb1 in *. rewrite Hlog1 in Hlog.
  unfold swept. conjs; try assumption.
  - now rewrite Hlog, app_assoc.
  - intros a Ha. destruct (Hrem a Ha) as (x & Hx & Hk & Hs & Ht).
    exists x. conjs; try assumption; [now right|].
    apply torn_down_app. now right.
  - intros x [<- | Hin] Hx; (split; [apply attempted_app | intros Hno; apply failed_app]);
      try (now left); right; now apply Hst.
Qed.

Lemma swept_success now T r rs w w1 pre removed log w' :
  NoDup (map row_agent_id (db w)) -> In r (db w) ->
  ~ In (row_agent_id r) (map row_agent_id rs) ->
  is_stale now T (of_row r) = true ->
  db w1 = delete_rows (row_agent_id r) (db w) -> calls w1 = calls w ++ pre ->
  torn_down pre r ->
  swept now T rs w1 removed log w' ->
  swept now T (r :: rs) w (row_agent_id r :: removed) (pre ++ log) w'.
Proof.
  intros Hkeys Hin Hnew Hstale Hdb1 Hlog1 Htorn
         (Hdb & Hlog & Hnd & Hlen & Hrem & Hst).
  rewrite Hdb1 in *. rewrite Hlog1 in Hlog.
  unfold swept. conjs.
  - now rewrite without_cons.
  - now rewrite Hlog, app_assoc.
  - constructor; [|exact Hnd]. intros Ha.
    destruct (Hrem _ Ha) as (x & Hx & Hk & _). apply Hnew.
    rewrite <- Hk. now apply in_map.
  - cbn [List.length]. pose proof (delete_rows_length r (db w) Hkeys Hin). lia.
  - intros a [<- | Ha].
    + exists r. conjs; try assumption; try reflexivity; [now left|].
      apply torn_down_app. now left.
    + destruct (Hrem a Ha) as (x & Hx & Hk & Hs & Ht).
      exists x. conjs; try assumption; [now right|].
      apply torn_down_app. now right.
  - intros x [<- | Hx] Hsx; split.
    + apply attempted_app. left.
      destruct Htorn as (r1 & _ & Hcall & _). now exists r1.
    + intros Hno. exfalso. apply Hno. now left.
    + apply attempted_app. right. now apply Hst.
    + intros Hno. apply failed_app. right. apply Hst; try assumption.
      intros Hmem. apply Hno. now right.
Qed.

Lemma sweep_step_stale now T wt rest cleaned w :
  is_stale now T wt = true ->
  sweep now T (wt :: rest) cleaned w
  = match remove_worktree (agent_id wt) true w with
    | (Returns _, w1) => sweep now T rest (cleaned + 1) w1
    | (Raises _, w1) => sweep now T rest cleaned w1
    end.
Proof.
  intros Hst. cbn [sweep]. rewrite Hst. unfold bind, try_.
  now destruct (remove_worktree (agent_id wt) true w) as [[u|e] w1].
Qed.

Lemma sweep_step_fresh now T wt rest cleaned w :
  is_stale now T wt = false ->
  sweep now T (wt :: rest) cleaned w = sweep now T rest cleaned w.
Proof. intros Hst. cbn [sweep]. now rewrite Hst. Qed.

(** The loop, over a snapshot [rs] of rows that are all still in the table. *)
Lemma sweep_rows now T rs :
  forall cleaned w,
    NoDup (map row_agent_id (db w)) ->
    NoDup (map row_agent_id rs) ->
    incl rs (db w) ->
    exists removed log w',
      sweep now T (map of_row rs) cleaned w
      = (Returns (cleaned + Z.of_nat (List.length removed))%Z, w')
      /\ swept now T rs w removed log w'.
Proof.
  induction rs as [|r rs IH]; intros cleaned w Hkeys Hsnap Hincl.
  - exists [], [], w. split; [|apply swept_nil].
    cbn. now rewrite Z.add_0_r.
  - cbn [map] in *. inversion Hsnap as [|? ? Hnew Hsnap']; subst.
    assert (Hin : In r (db w)) by (apply Hincl; now left).
    assert (Hrest : incl rs (db w)) by (intros x Hx; apply Hincl; now right).
    destruct (is_stale now T (of_row r)) eqn:Est.
    + rewrite (sweep_step_stale _ _ _ _ _ _ Est).
      change (agent_id (of_row r)) with (row_agent_id r).
      rewrite (remove_worktree_run _ _ _ _
                 (select_one_unique _ _ _ Hkeys Hin eq_refl)).
      cbn zeta.
      destruct (run_git (repo w) (remove_cmd (of_row r) true)) as [g1 r1].
      destruct (returncode r1 =? 0)%Z eqn:E1.
      * destruct (run_git g1 (branch_cmd (of_row r))) as [g2 r2].
        destruct (returncode r2 =? 0)%Z eqn:E2.
        -- apply Z.eqb_eq in E1, E2.
           match goal with |- context [sweep _ _ _ _ ?w1] => set (w1' := w1) end.
           destruct (IH (cleaned + 1)%Z w1') as (removed & log & w' & Hrun & Hsw).
           ++ cbn [db w1']. now apply delete_rows_keys.
           ++ exact Hsnap'.
           ++ intros x Hx. cbn [db w1']. apply filter_In. split; [now apply Hrest|].
              apply negb_true_iff, String.eqb_neq. intros Heq. apply Hnew.
              rewrite <- Heq. now apply in_map.
           ++ exists (row_agent_id r :: removed),
                ([(remove_cmd (of_row r) true, r1); (branch_cmd (of_row r), r2)] ++ log),
                w'.
              split.
              ** rewrite Hrun. cbn [List.length]. do 2 f_equal. lia.
              ** apply (swept_success now T r rs w w1'); try assumption;
                   try reflexivity.
                 --- cbn [calls w1']. now rewrite <- app_assoc.
                 --- exists r1, r2. cbn. tauto.
        -- apply Z.eqb_neq in E2.
           match goal with |- context [sweep _ _ _ _ ?w1] => set (w1' := w1) end.
           destruct (IH cleaned w1' Hkeys Hsnap' Hrest) as (removed & log & w' & Hrun & Hsw).
           exists removed,
             ([(remove_cmd (of_row r) true, r1); (branch_cmd (of_row r), r2)] ++ log),
             w'.
           split; [exact Hrun|].
           apply (swept_failure now T r rs w w1'); try assumption; try reflexivity.
           ++ cbn [calls w1']. now rewrite <- app_assoc.
           ++ exists r1. now left.
           ++ exists (branch_cmd (of_row r)), r2. cbn. tauto.
      * apply Z.eqb_neq in E1.
        match goal with |- context [sweep _ _ _ _ ?w1] => set (w1' := w1) end.
        destruct (IH cleaned w1' Hkeys Hsnap' Hrest) as (removed & log & w' & Hrun & Hsw).
        exists removed, ([(remove_cmd (of_row r) true, r1)] ++ log), w'.
        split; [exact Hrun|].
        apply (swept_failure now T r rs w w1'); try assumption; try reflexivity.
        ++ exists r1. now left.
        ++ exists (remove_cmd (of_row r) true), r1. cbn. tauto.
    + rewrite (sweep_step_fresh _ _ _ _ _ _ Est).
      destruct (IH cleaned w Hkeys Hsnap' Hrest) as (removed & log & w' & Hrun & Hsw).
      exists removed, log, w'. split; [exact Hrun|].
      now apply swept_skip.
Qed.

(** The sweep when the test is read exactly, on a table with one row per
    agent: which rows go, which stay, what is counted and which external
    steps were run. *)
Lemma exact_sweep (now T : Z) (w : World) :
  NoDup (map row_agent_id (db w)) ->
  exists removed log w',
    cleanup_stale_worktrees now T w
    = (Returns (Z.of_nat (List.length removed)), w')
    /\ db w' = without removed (db w)
    /\ calls w' = calls w ++ log
    /\ (List.length (db w') + List.length removed = List.length (db w))%nat
    /\ (forall r, In r (db w) -> is_stale now T (of_row r) = false ->
          In r (db w'))
    /\ (forall r, In r (db w) -> In r (db w') \/ In (row_agent_id r) removed)
    /\ (forall r, In r (db w) -> In (row_agent_id r) removed ->
          ~ In r (db w')
          /\ is_stale now T (of_row r) = true /\ torn_down log r)
    /\ (forall r, In r (db w) -> is_stale now T (of_row r) = true ->
          attempted log r /\ (In r (db w') -> failed log r)).
Proof.
  intros Hkeys.
  unfold cleanup_stale_worktrees, bind, list_worktrees.
  pose proof (order_by_perm (db w)) as Hperm.
  destruct (sweep_rows now T (order_by_created_at_desc (db w)) 0%Z w Hkeys)
    as (removed & log & w' & Hrun & Hdb & Hlog & Hnd & Hlen & Hrem & Hst).
  { apply (Permutation_NoDup (l := map row_agent_id (db w))); [|exact Hkeys].
    apply Permutation_map, Permutation_sym, Hperm. }
  { intros x Hx. now apply order_by_In. }
  assert (Hstay : forall r, In r (db w) ->
                    (In r (db w') <-> ~ In (row_agent_id r) removed)).
  { intros r Hr. rewrite Hdb. unfold without. rewrite filter_In.
    unfold mentions. split.
    - intros [_ Hno] Hmem. apply negb_true_iff in Hno.
      assert (Hyes : existsb (String.eqb (row_agent_id r)) removed = true).
      { apply existsb_exists. exists (row_agent_id r).
        split; [exact Hmem | apply String.eqb_refl]. }
      congruence.
    - intros Hno. split; [exact Hr|]. apply negb_true_iff.
      destruct (existsb (String.eqb (row_agent_id r)) removed) eqn:E;
        [|reflexivity].
      apply existsb_exists in E. destruct E as (k & Hk & Heq).
      apply String.eqb_eq in Heq. subst k. contradiction. }
  assert (Hown : forall r, In r (db w) -> In (row_agent_id r) removed ->
                   is_stale now T (of_row r) = true /\ torn_down log r).
  { intros r Hr Hmem. destruct (Hrem _ Hmem) as (x & Hx & Hk & Hs & Ht).
    apply (proj1 (order_by_In _ _)) in Hx.
    now rewrite <- (same_key_same_row _ _ _ Hkeys Hx Hr Hk). }
  exists removed, log, w'. conjs; try assumption.
  - intros r Hr Hfresh. apply Hstay; [exact Hr|]. intros Hmem.
    destruct (Hown r Hr Hmem) as [Hs _]. congruence.
  - intros r Hr.
    destruct (in_dec string_dec (row_agent_id r) removed) as [Hmem | Hno];
      [now right | left; now apply Hstay].
  - intros r Hr Hmem. split; [|now apply Hown].
    intros Hstill. now apply (Hstay r Hr) in Hstill.
  - intros r Hr Hs.
    destruct (Hst r (proj2 (order_by_In _ _) Hr) Hs) as [Hatt Hfail].
    split; [exact Hatt|].
    intros Hstill. apply Hfail. now apply Hstay.
Qed.

End Sweep.

(** ** The table keeps one row per agent *)

(** The primary-key invariant: no two rows share an [agent_id]. *)
Lemma insert_row_keys r rows rows' :
  NoDup (map row_agent_id rows) -> insert_row r rows = Returns rows' ->
  NoDup (map row_agent_id rows').
Proof.
  unfold insert_row. intros Hnd Hins.
  destruct (select_one (row_agent_id r) rows) eqn:Hsel; [discriminate|].
  injection Hins as <-. rewrite map_app. cbn.
  apply NoDup_app; conjs; [exact Hnd | repeat constructor; intros [] | ].
  intros k Hk [<- | []]. apply in_map_iff in Hk. destruct Hk as (x & Hkey & Hx).
  exact (proj1 (select_one_None _ _) Hsel x Hx Hkey).
Qed.

Lemma set_last_active_keys now a rows :
  map row_agent_id (set_last_active now a rows) = map row_agent_id rows.
Proof.
  unfold set_last_active. rewrite map_map. apply map_ext. intros r.
  now destruct (String.eqb (row_agent_id r) a).
Qed.

(** Every operation that writes the table keeps the invariant. *)
Lemma create_worktree_keys `{Host} self now a base_branch w :
  NoDup (map row_agent_id (db w)) ->
  NoDup (map row_agent_id (db (snd (create_worktree self now a base_branch w)))).
Proof.
  intros Hnd. destruct (select_one a (db w)) as [r|] eqn:Hsel.
  - now rewrite (create_worktree_existing _ _ _ _ _ _ Hsel).
  - rewrite (create_worktree_run _ _ _ _ _ Hsel). cbn zeta.
    destruct (run_git (repo w) _) as [g result].
    destruct (returncode result =? 0)%Z; cbn [snd db]; [|exact Hnd].
    apply (insert_row_keys (new_row self now a) (db w)); [exact Hnd|].
    unfold insert_row. cbn [row_agent_id new_row]. now rewrite Hsel.
Qed.

Lemma remove_worktree_keys `{Host} a force w :
  NoDup (map row_agent_id (db w)) ->
  NoDup (map row_agent_id (db (snd (remove_worktree a force w)))).
Proof.
  intros Hnd. destruct (select_one a (db w)) as [r|] eqn:Hsel.
  - rewrite (remove_worktree_run _ _ _ _ Hsel). cbn zeta.
    destruct (run_git (repo w) _) as [g1 r1].
    destruct (returncode r1 =? 0)%Z; [|exact Hnd].
    destruct (run_git g1 _) as [g2 r2].
    destruct (returncode r2 =? 0)%Z; [|exact Hnd].
    cbn [snd db]. now apply delete_rows_keys.
  - unfold remove_worktree, bind, _get_worktree. now rewrite Hsel.
Qed.

Lemma update_last_active_keys `{Host} now a w :
  NoDup (map row_agent_id (db w)) ->
  NoDup (map row_agent_id (db (snd (update_last_active now a w)))).
Proof. intros Hnd. cbn. now rewrite set_last_active_keys. Qed.

(** ** Scenarios *)

Example split_words :
  Py.split "  changed in both   src/a.txt " = ["changed"; "in"; "both"; "src/a.txt"].
Proof. reflexivity. Qed.

Example split_lines_keeps_empty :
  Py.split_on LF ("a" ++ Sim.nl ++ Sim.nl ++ "b" ++ Sim.nl)%string = ["a"; ""; "b"; ""].
Proof. reflexivity. Qed.

Example lower_upper : Py.lower "CONFLICT (content)" = "conflict (content)".
Proof. reflexivity. Qed.

(** The scenario of the specification: create [a1] from [main], find no
    conflict, remove it, and the listing is empty again. *)
Example scenario_a1 :
  let w0 := Sim.fresh Sim.ok in
  let (r1, w1) := create_worktree Sim.manager Sim.morning "a1" "main" w0 in
  let (r2, w2) := detect_conflicts "a1" "main" w1 in
  let (r3, w3) := remove_worktree "a1" false w2 in
  r1 = Returns "/srv/worktrees/worktree-a1"
  /\ option_map row_branch (select_one "a1" (db w1)) = Some "agent-a1"
  /\ r2 = Returns []
  /\ r3 = Returns tt
  /\ fst (list_worktrees w3) = Returns [].
Proof. vm_compute. repeat split. Qed.

(** The sweep over three agents at noon with a threshold of an hour: [a1]
    is removed, the removal of [a2] fails and is passed over, [a3] is not
    stale; one removal is counted. *)
Example sweep_three_agents :
  let (r, w) := cleanup_stale_worktrees Sim.noon 60 Sim.three_agents in
  r = Returns 1%Z
  /\ map row_agent_id (db w) = ["a2"; "a3"]
  /\ map fst (calls w)
     = [["git"; "worktree"; "remove"; "/srv/worktrees/worktree-a1"; "--force"];
        ["git"; "branch"; "-D"; "agent-a1"];
        ["git"; "worktree"; "remove"; "/srv/worktrees/worktree-a2"; "--force"]].
Proof. vm_compute. repeat split. Qed.

(** ** The theorems at concrete inputs *)

Lemma remove_worktree_unknown_witness :
  remove_worktree "ghost" false (Sim.with_a1 Sim.morning Sim.ok)
  = (Raises (ValueError "Worktree does not exist for agent ghost"),
     Sim.with_a1 Sim.morning Sim.ok).
Proof.
  apply (remove_worktree_unknown "ghost" false (Sim.with_a1 Sim.morning Sim.ok)).
  reflexivity.
Defined.

Lemma create_worktree_twice_witness :
  create_worktree Sim.manager (Sim.morning + 1) "a1" "develop"
                  (Sim.with_a1 Sim.morning Sim.ok)
  = (Raises (ValueError
       "Worktree already exists for agent a1: /srv/worktrees/worktree-a1"),
     Sim.with_a1 Sim.morning Sim.ok).
Proof.
  apply (create_worktree_twice Sim.manager Sim.morning (Sim.morning + 1)
           "a1" "main" "develop" (Sim.fresh Sim.ok)
           (Sim.with_a1 Sim.morning Sim.ok) "/srv/worktrees/worktree-a1").
  reflexivity.
Defined.

Lemma create_worktree_git_failure_witness :
  exists w',
    create_worktree Sim.manager Sim.morning "a1" "missing" (Sim.fresh Sim.ok)
    = (Raises (CalledProcessError 128
                 ["git"; "worktree"; "add"; "/srv/worktrees/worktree-a1";
                  "-b"; "agent-a1"; "missing"]
                 "" "fatal: invalid reference"), w')
    /\ db w' = db (Sim.fresh Sim.ok).
Proof.
  apply (create_worktree_git_failure Sim.manager Sim.morning "a1" "missing"
           (Sim.fresh Sim.ok)).
  - reflexivity.
  - vm_compute. discriminate.
Defined.

Lemma create_worktree_record_witness :
  exists w',
    let wt := mkWorktreeInfo (H := Sim.host) "a1" "/srv/worktrees/worktree-a1"
                             "agent-a1" Sim.morning Sim.morning "active" in
    create_worktree Sim.manager Sim.morning "a1" "main" (Sim.fresh Sim.ok)
    = (Returns "/srv/worktrees/worktree-a1", w')
    /\ _get_worktree "a1" w' = (Returns (Some wt), w')
    /\ (exists l, list_worktrees w' = (Returns l, w') /\ In wt l)
    /\ status wt = "active" /\ created_at wt = last_active wt.
Proof.
  apply (create_worktree_record Sim.manager Sim.morning "a1" "main"
           (Sim.fresh Sim.ok)); reflexivity.
Defined.

Lemma remove_worktree_record_witness :
  match remove_worktree "a1" false (Sim.with_a1 Sim.morning Sim.ok) with
  | (Returns _, w') =>
      db w' = [] /\ _get_worktree "a1" w' = (Returns None, w')
  | (Raises _, _) => False
  end.
Proof.
  pose proof (remove_worktree_record "a1" false
                (Sim.with_a1 Sim.morning Sim.ok)
                (Sim.row_of "a1" Sim.morning) eq_refl) as P.
  cbn zeta in P.
  destruct (remove_worktree "a1" false (Sim.with_a1 Sim.morning Sim.ok))
    as [[u|e] w'] eqn:E.
  - destruct P as (_ & Hdb & Hget & _). split; [|exact Hget].
    rewrite Hdb. vm_compute. reflexivity.
  - vm_compute in E. discriminate.
Defined.

Lemma detect_conflicts_one_line_witness :
  exists w',
    detect_conflicts "a1" "main" (Sim.with_a1 Sim.morning Sim.report_conflict)
    = (Returns [mkConflictFile "src/a.txt" "content" None None None], w')
    /\ db w' = db (Sim.with_a1 Sim.morning Sim.report_conflict).
Proof.
  apply (detect_conflicts_one_line "a1" "main"
           (Sim.with_a1 Sim.morning Sim.report_conflict)
           (Sim.row_of "a1" Sim.morning)
           "changed in both   src/a.txt" "src/a.txt").
  - vm_compute. reflexivity.
  - vm_compute. reflexivity.
  - vm_compute. reflexivity.
  - vm_compute. lia.
  - vm_compute. reflexivity.
Defined.

Lemma detect_conflicts_classification_witness :
  exists w',
    detect_conflicts "a1" "main" (Sim.with_a1 Sim.morning Sim.ok)
    = (Returns [], w').
Proof.
  destruct (detect_conflicts_classification "a1" "main"
              (Sim.with_a1 Sim.morning Sim.ok)
              (Sim.row_of "a1" Sim.morning) eq_refl)
    as [_ (w' & _ & Hclean)].
  exists w'. apply Hclean; reflexivity.
Defined.

Lemma three_agents_keys : NoDup (map row_agent_id (db Sim.three_agents)).
Proof.
  cbn. repeat constructor; cbn; intuition discriminate.
Defined.

(** ** Where the specification and the code part *)

(** C1 as stated fails. With a record for [a1]: a report whose only line
    is ["changed in both src/a.txt"], returned with code zero and without
    the marker, has exactly one line starting with the phrase and
    ["src/a.txt"] as its last token, yet [detect_conflicts] returns the
    empty list.  And a report with a nonzero code whose one such line is the
    bare phrase, last token ["both"], gives the empty list as well. *)
Lemma detect_conflicts_one_line_unguarded :
  (select_one "a1" (db (Sim.with_a1 Sim.morning Sim.report_unflagged))
   = Some (Sim.row_of "a1" Sim.morning)
   /\ changed_in_both_lines (stdout Sim.report_unflagged)
      = ["changed in both src/a.txt"]
   /\ Py.last_item (Py.split "changed in both src/a.txt") = "src/a.txt"
   /\ fst (detect_conflicts "a1" "main"
             (Sim.with_a1 Sim.morning Sim.report_unflagged))
      = Returns []
   /\ fst (detect_conflicts "a1" "main"
             (Sim.with_a1 Sim.morning Sim.report_unflagged))
      <> Returns [mkConflictFile "src/a.txt" "content" None None None])
  /\ (select_one "a1" (db (Sim.with_a1 Sim.morning Sim.report_bare_phrase))
      = Some (Sim.row_of "a1" Sim.morning)
      /\ changed_in_both_lines (stdout Sim.report_bare_phrase)
         = ["changed in both"]
      /\ Py.last_item (Py.split "changed in both") = "both"
      /\ fst (detect_conflicts "a1" "main"
                (Sim.with_a1 Sim.morning Sim.report_bare_phrase))
         = Returns []
      /\ fst (detect_conflicts "a1" "main"
                (Sim.with_a1 Sim.morning Sim.report_bare_phrase))
         <> Returns [mkConflictFile "both" "content" None None None]).
Proof.
  conjs; try (vm_compute; reflexivity); vm_compute; discriminate.
Qed.

(** C3 as stated fails. With a record for [a1] last active at 09:00: a
    call whose clock reading is again 09:00 leaves the stored timestamp
    where it was, and a call whose clock reading is one microsecond
    earlier moves it back. *)
Lemma update_last_active_not_increasing :
  stored_last_active "a1" (Sim.with_a1 Sim.morning Sim.ok) = Some Sim.morning
  /\ stored_last_active "a1"
       (snd (update_last_active Sim.morning "a1"
               (Sim.with_a1 Sim.morning Sim.ok)))
     = Some Sim.morning
  /\ ~ (Sim.morning < Sim.morning)%Z
  /\ stored_last_active "a1"
       (snd (update_last_active (Sim.morning - 1) "a1"
               (Sim.with_a1 Sim.morning Sim.ok)))
     = Some (Sim.morning - 1)%Z
  /\ (Sim.morning - 1 < Sim.morning)%Z.
Proof.
  conjs; try (vm_compute; reflexivity).
  vm_compute. discriminate.
Qed.


(** ** Further properties of the operations *)

Section Registry.

Context `{Host}.

Lemma select_one_app_other (b : string) (rows : list Row) (r : Row) :
  row_agent_id r <> b -> select_one b (rows ++ [r]) = select_one b rows.
Proof.
  intros Hneq. induction rows as [|x xs IH]; cbn.
  - destruct (String.eqb (row_agent_id r) b) eqn:E; [|reflexivity].
    apply String.eqb_eq in E. contradiction.
  - destruct (String.eqb (row_agent_id x) b); [reflexivity | exact IH].
Qed.

Lemma select_one_delete_other (a b : string) (rows : list Row) :
  b <> a -> select_one b (delete_rows a rows) = select_one b rows.
Proof.
  intros Hneq. induction rows as [|x xs IH]; [reflexivity|].
  cbn. destruct (String.eqb (row_agent_id x) a) eqn:Ea; cbn.
  - apply String.eqb_eq in Ea.
    destruct (String.eqb (row_agent_id x) b) eqn:Eb; [|exact IH].
    apply String.eqb_eq in Eb. congruence.
  - destruct (String.eqb (row_agent_id x) b); [reflexivity | exact IH].
Qed.

Lemma delete_rows_app_new (a : string) (rows : list Row) (r : Row) :
  select_one a rows = None -> row_agent_id r = a ->
  delete_rows a (rows ++ [r]) = rows.
Proof.
  intros Hnone Hkey. unfold delete_rows. rewrite filter_app. cbn.
  rewrite Hkey, String.eqb_refl. cbn. rewrite app_nil_r.
  apply delete_rows_absent. now apply select_one_None.
Qed.

(** What [create_worktree] does to the table, in every case. *)
Lemma create_worktree_db self now a base_branch w :
  db (snd (create_worktree self now a base_branch w)) = db w
  \/ (select_one a (db w) = None
      /\ db (snd (create_worktree self now a base_branch w))
         = db w ++ [new_row self now a]).
Proof.
  destruct (select_one a (db w)) as [r|] eqn:Hsel.
  - left. now rewrite (create_worktree_existing _ _ _ _ _ _ Hsel).
  - rewrite (create_worktree_run _ _ _ _ _ Hsel). cbn zeta.
    destruct (run_git (repo w) _) as [g result].
    destruct (returncode result =? 0)%Z; [right | left]; now cbn.
Qed.

(** What [remove_worktree] does to the table, in every case. *)
Lemma remove_worktree_db a force w :
  db (snd (remove_worktree a force w)) = db w
  \/ db (snd (remove_worktree a force w)) = delete_rows a (db w).
Proof.
  destruct (select_one a (db w)) as [r|] eqn:Hsel.
  - rewrite (remove_worktree_run _ _ _ _ Hsel). cbn zeta.
    destruct (run_git (repo w) _) as [g1 r1].
    destruct (returncode r1 =? 0)%Z; [|now left].
    destruct (run_git g1 _) as [g2 r2].
    destruct (returncode r2 =? 0)%Z; [now right | now left].
  - left. unfold remove_worktree, bind, _get_worktree. now rewrite Hsel.
Qed.

(** X1. Creating a worktree for an agent and then removing it, both
    calls returning, gives back the table from before the creation: the
    same rows in the same order. *)
Theorem create_then_remove_restores (self : GitWorktreeManager) (now : Z)
    (a base_branch : string) (force : bool) (w w1 w2 : World) (p : Path) :
  create_worktree self now a base_branch w = (Returns p, w1) ->
  remove_worktree a force w1 = (Returns tt, w2) ->
  db w2 = db w.
Proof.
  intros Hcreate Hremove.
  destruct (select_one a (db w)) as [r|] eqn:Hsel.
  - rewrite (create_worktree_existing _ _ _ _ _ _ Hsel) in Hcreate. discriminate.
  - rewrite (create_worktree_run _ _ _ _ _ Hsel) in Hcreate. cbn zeta in Hcreate.
    destruct (run_git (repo w) _) as [g result].
    destruct (returncode result =? 0)%Z; [|discriminate].
    injection Hcreate as _ <-.
    rewrite (remove_worktree_run a force _ (new_row self now a)) in Hremove
      by (cbn [db]; now apply select_one_app_new).
    cbn zeta in Hremove.
    destruct (run_git _ (remove_cmd _ force)) as [g1 r1].
    destruct (returncode r1 =? 0)%Z; [|discriminate].
    destruct (run_git g1 _) as [g2 r2].
    destruct (returncode r2 =? 0)%Z; [|discriminate].
    injection Hremove as <-. cbn [db].
    now apply delete_rows_app_new.
Qed.

(** X2. [create_worktree] and [remove_worktree] for one agent leave the
    record of every other agent as it was, whether they return or raise. *)
Theorem other_agents_untouched (self : GitWorktreeManager) (now : Z)
    (a b base_branch : string) (force : bool) (w : World) :
  b <> a ->
  _get_worktree b (snd (create_worktree self now a base_branch w))
  = (fst (_get_worktree b w), snd (create_worktree self now a base_branch w))
  /\ _get_worktree b (snd (remove_worktree a force w))
     = (fst (_get_worktree b w), snd (remove_worktree a force w)).
Proof.
  intros Hneq. unfold _get_worktree. cbn [fst]. split.
  - destruct (create_worktree_db self now a base_branch w) as [-> | [_ ->]];
      [reflexivity|].
    rewrite select_one_app_other; [reflexivity|]. cbn. congruence.
  - destruct (remove_worktree_db a force w) as [-> | ->]; [reflexivity|].
    now rewrite select_one_delete_other.
Qed.

(** X3. [create_worktree] changes the table only by returning.  When
    it returns, the agent had no record before and exactly one row, the
    new agent's, has been appended after the rows that were there, which
    are unchanged and in their order.  Whenever it raises, the table is the
    one from before the call. *)
Theorem create_worktree_writes_on_return (self : GitWorktreeManager) (now : Z)
    (a base_branch : string) (w : World) :
  match create_worktree self now a base_branch w with
  | (Returns _, w') =>
      select_one a (db w) = None /\ db w' = db w ++ [new_row self now a]
  | (Raises _, w') => db w' = db w
  end.
Proof.
  destruct (select_one a (db w)) as [r|] eqn:Hsel.
  - now rewrite (create_worktree_existing _ _ _ _ _ _ Hsel).
  - rewrite (create_worktree_run _ _ _ _ _ Hsel). cbn zeta.
    destruct (run_git (repo w) _) as [g result].
    now destruct (returncode result =? 0)%Z.
Qed.

End Registry.

Section Reports.

Context `{Host}.

Lemma split_tokens (s tok : string) :
  In tok (Py.split s) -> tok <> EmptyString /\ no_whitespace tok.
Proof.
  revert tok. induction s as [|c s' IH]; intros tok Hin; [contradiction|].
  cbn [Py.split] in Hin.
  destruct (Py.isspace c) eqn:Ec; [now apply IH|].
  assert (Hone : String c EmptyString <> EmptyString
                 /\ no_whitespace (String c EmptyString)).
  { split; [discriminate|]. intros x [<- | []]. exact Ec. }
  destruct s' as [|c' s''].
  - destruct Hin as [<- | []]. exact Hone.
  - destruct (Py.isspace c') eqn:Ec'.
    + destruct Hin as [<- | Hin]; [exact Hone | now apply IH].
    + destruct (Py.split (String c' s'')) as [|t ts] eqn:Es.
      * destruct Hin as [<- | []]. exact Hone.
      * destruct Hin as [<- | Hin].
        -- destruct (IH t (or_introl eq_refl)) as [_ Ht].
           split; [discriminate|]. intros x [<- | Hx]; [exact Ec | now apply Ht].
        -- apply IH. now right.
Qed.

Lemma last_item_In (parts : list string) :
  parts <> [] -> In (Py.last_item parts) parts.
Proof.
  intros Hne. destruct (exists_last Hne) as (l & x & ->).
  unfold Py.last_item. rewrite last_last. apply in_or_app. right. now left.
Qed.

Lemma scan_line_qualifies line :
  scan_line line
  = if qualifies line
    then [content_conflict (Py.last_item (Py.split line))] else [].
Proof.
  unfold scan_line, qualifies.
  destruct (Py.startswith line "changed in both"); [|reflexivity].
  now destruct (4 <=? List.length (Py.split line))%nat.
Qed.

Lemma flat_map_scan_line lines :
  flat_map scan_line lines
  = map (fun line => content_conflict (Py.last_item (Py.split line)))
        (filter qualifies lines).
Proof.
  induction lines as [|l ls IH]; [reflexivity|].
  cbn [flat_map filter]. rewrite scan_line_qualifies, IH.
  now destruct (qualifies l).
Qed.

(** X4. [detect_conflicts] for an agent without a record raises the
    "does not exist" [ValueError] before anything else happens: the world
    after the call is the world before it, with no [git] invocation. *)
Theorem detect_conflicts_missing_record (a target_branch : string) (w : World) :
  select_one a (db w) = None ->
  detect_conflicts a target_branch w
  = (Raises (ValueError (does_not_exist_msg a)), w).
Proof.
  intros Hsel. unfold detect_conflicts, bind, _get_worktree.
  now rewrite Hsel.
Qed.

(** X5. [detect_conflicts] never writes the table and never raises
    [CalledProcessError]: the return code of [git] is not an error for it.
    It invokes [git] at most once, as
    [git merge-tree target agent-branch], and only for an agent that has a
    record. *)
Theorem detect_conflicts_read_only (a target_branch : string) (w : World) :
  db (snd (detect_conflicts a target_branch w)) = db w
  /\ (forall code cmd output err,
        fst (detect_conflicts a target_branch w)
        <> Raises (CalledProcessError code cmd output err))
  /\ (calls (snd (detect_conflicts a target_branch w)) = calls w
      \/ exists r result,
           select_one a (db w) = Some r
           /\ calls (snd (detect_conflicts a target_branch w))
              = calls w ++ [(["git"; "merge-tree"; target_branch; row_branch r],
                             result)]).
Proof.
  destruct (select_one a (db w)) as [r|] eqn:Hsel.
  - rewrite (detect_conflicts_run _ _ _ _ Hsel). cbn zeta.
    destruct (run_git (repo w) _) as [g result]. cbn [fst snd db calls].
    conjs; [reflexivity | discriminate | right; now exists r, result].
  - unfold detect_conflicts, bind, _get_worktree. rewrite Hsel.
    cbn [fst snd]. conjs; [reflexivity | discriminate | now left].
Qed.

(** X6. For an agent with a record, a report in which no line starts
    with ["changed in both"] gives the empty list whatever the return code:
    a failed [git merge-tree], with its message on standard error and
    nothing on standard output, reads as no conflicts. *)
Theorem detect_conflicts_no_phrase (a target_branch : string) (w : World)
    (r : Row) :
  select_one a (db w) = Some r ->
  changed_in_both_lines
    (stdout (snd (run_git (repo w) (merge_cmd target_branch (of_row r))))) = [] ->
  fst (detect_conflicts a target_branch w) = Returns [].
Proof.
  intros Hsel Hnone.
  rewrite (detect_conflicts_run _ _ _ _ Hsel). cbn zeta.
  destruct (run_git (repo w) _) as [g result]. cbn [fst snd] in *.
  f_equal. unfold parse_report.
  destruct (has_conflicts result); [|reflexivity].
  rewrite scan_lines_flat_map, flat_map_scan_filter. cbn [app].
  fold (changed_in_both_lines (stdout result)). now rewrite Hnone.
Qed.

(** X7. For an agent with a record, when the guard holds the result of
    [detect_conflicts] has one [ConflictFile] for each line of the report
    that starts with the phrase and has at least four tokens, in the order
    of the lines, repeated lines included; its path is the last token of
    that line. *)
Theorem detect_conflicts_per_line (a target_branch : string) (w : World)
    (r : Row) :
  select_one a (db w) = Some r ->
  let result := snd (run_git (repo w) (merge_cmd target_branch (of_row r))) in
  has_conflicts result = true ->
  fst (detect_conflicts a target_branch w)
  = Returns (map (fun line => content_conflict (Py.last_item (Py.split line)))
                 (filter qualifies (Py.split_on LF (stdout result)))).
Proof.
  intros Hsel result Hhas. subst result.
  rewrite (detect_conflicts_run _ _ _ _ Hsel). cbn zeta.
  destruct (run_git (repo w) _) as [g result]. cbn [fst snd] in *.
  f_equal. unfold parse_report. rewrite Hhas.
  rewrite scan_lines_flat_map. cbn [app]. apply flat_map_scan_line.
Qed.

(** X8. The path of every [ConflictFile] that [detect_conflicts] returns
    is a single token: it is not empty and contains no whitespace
    character, so of a file name with a blank in it only the part after
    the last blank is reported. *)
Theorem detect_conflicts_paths_are_tokens (a target_branch : string)
    (w : World) :
  match detect_conflicts a target_branch w with
  | (Returns conflicts, _) =>
      Forall (fun cf => cf_path cf <> EmptyString /\ no_whitespace (cf_path cf))
             conflicts
  | (Raises _, _) => True
  end.
Proof.
  destruct (select_one a (db w)) as [r|] eqn:Hsel.
  - rewrite (detect_conflicts_run _ _ _ _ Hsel). cbn zeta.
    destruct (run_git (repo w) _) as [g result].
    unfold parse_report. destruct (has_conflicts result); [|constructor].
    rewrite scan_lines_flat_map, flat_map_scan_line. cbn [app].
    apply Forall_forall. intros cf Hcf.
    apply in_map_iff in Hcf. destruct Hcf as (line & <- & Hline).
    apply filter_In in Hline. destruct Hline as [_ Hq].
    unfold qualifies in Hq. apply andb_true_iff in Hq. destruct Hq as [_ Hlen].
    apply Nat.leb_le in Hlen. cbn [cf_path content_conflict].
    apply (split_tokens line). apply last_item_In.
    intros Hnil. rewrite Hnil in Hlen. cbn in Hlen. lia.
  - unfold detect_conflicts, bind, _get_worktree. now rewrite Hsel.
Qed.

End Reports.

Section Listing.

Context `{Host}.

Lemma insert_desc_In r x rows : In x (insert_desc r rows) <-> x = r \/ In x rows.
Proof.
  split.
  - intros Hin. apply (Permutation_in _ (insert_desc_perm r rows)) in Hin.
    destruct Hin as [<- | Hin]; auto.
  - intros Hin.
    apply (Permutation_in _ (Permutation_sym (insert_desc_perm r rows))).
    destruct Hin as [-> | Hin]; [now left | now right].
Qed.

Lemma insert_desc_sorted r rows :
  StronglySorted (fun x y => (row_created_at y <= row_created_at x)%Z) rows ->
  StronglySorted (fun x y => (row_created_at y <= row_created_at x)%Z)
                 (insert_desc r rows).
Proof.
  induction rows as [|x xs IH]; intros Hs; cbn.
  - repeat constructor.
  - apply StronglySorted_inv in Hs. destruct Hs as [Hxs Hall].
    destruct (row_created_at x <=? row_created_at r)%Z eqn:E.
    + apply Z.leb_le in E. constructor; [now constructor|].
      constructor; [exact E|].
      apply Forall_forall. intros y Hy.
      pose proof (proj1 (Forall_forall _ _) Hall y Hy). cbn in *. lia.
    + apply Z.leb_gt in E. constructor; [now apply IH|].
      apply Forall_forall. intros y Hy. apply insert_desc_In in Hy.
      destruct Hy as [-> | Hy]; [lia|].
      exact (proj1 (Forall_forall _ _) Hall y Hy).
Qed.

Lemma order_by_sorted rows :
  StronglySorted (fun x y => (row_created_at y <= row_created_at x)%Z)
                 (order_by_created_at_desc rows).
Proof.
  induction rows as [|x xs IH]; cbn; [constructor | now apply insert_desc_sorted].
Qed.

Lemma map_sorted (rows : list Row) :
  StronglySorted (fun x y => (row_created_at y <= row_created_at x)%Z) rows ->
  newest_first (map of_row rows).
Proof.
  unfold newest_first. induction 1 as [|x xs Hxs IH Hall]; cbn; constructor.
  - exact IH.
  - apply Forall_forall. intros y Hy. apply in_map_iff in Hy.
    destruct Hy as (z & <- & Hz). cbn.
    exact (proj1 (Forall_forall _ _) Hall z Hz).
Qed.

Lemma insert_desc_touched now a r rows :
  insert_desc (if String.eqb (row_agent_id r) a then touched now r else r)
              (set_last_active now a rows)
  = set_last_active now a (insert_desc r rows).
Proof.
  induction rows as [|x xs IH]; [reflexivity|].
  cbn [set_last_active map insert_desc].
  assert (Hx : row_created_at
                 (if String.eqb (row_agent_id x) a
                  then mkRow (row_agent_id x) (row_path x) (row_branch x)
                             (row_created_at x) now (row_status x)
                  else x) = row_created_at x)
    by now destruct (String.eqb (row_agent_id x) a).
  assert (Hr : row_created_at
                 (if String.eqb (row_agent_id r) a then touched now r else r)
               = row_created_at r)
    by now destruct (String.eqb (row_agent_id r) a).
  rewrite Hx, Hr.
  destruct (row_created_at x <=? row_created_at r)%Z; cbn [map].
  - reflexivity.
  - f_equal. exact IH.
Qed.

Lemma order_by_touched now a rows :
  order_by_created_at_desc (set_last_active now a rows)
  = set_last_active now a (order_by_created_at_desc rows).
Proof.
  induction rows as [|x xs IH]; [reflexivity|].
  cbn [set_last_active map order_by_created_at_desc fold_right].
  change (fold_right insert_desc [] (map _ xs))
    with (order_by_created_at_desc (set_last_active now a xs)).
  rewrite IH. apply (insert_desc_touched now a x).
Qed.

Lemma of_row_touched now a r :
  of_row (if String.eqb (row_agent_id r) a then touched now r else r)
  = touched_info now a (of_row r).
Proof.
  unfold touched_info. cbn [agent_id of_row].
  now destruct (String.eqb (row_agent_id r) a).
Qed.

(** X9. [list_worktrees] returns every record of the table exactly once,
    ordered by [created_at] from the newest to the oldest, and leaves the
    world as it was. *)
Theorem list_worktrees_newest_first (w : World) :
  exists l,
    list_worktrees w = (Returns l, w)
    /\ newest_first l
    /\ Permutation l (map of_row (db w)).
Proof.
  eexists. split; [reflexivity|]. split.
  - apply map_sorted, order_by_sorted.
  - apply Permutation_map, order_by_perm.
Qed.

(** X10. A heartbeat does not reorder the listing: after
    [update_last_active] the listing is the one from before, position by
    position, with [last_active] replaced in the records of that agent. *)
Theorem update_last_active_keeps_order (now : Z) (a : string) (w : World) :
  exists l,
    fst (list_worktrees w) = Returns l
    /\ fst (list_worktrees (snd (update_last_active now a w)))
       = Returns (map (touched_info now a) l).
Proof.
  eexists. split; [reflexivity|].
  unfold list_worktrees, update_last_active. cbn [fst snd db]. f_equal.
  rewrite order_by_touched. unfold set_last_active. rewrite !map_map.
  apply map_ext. intros r. apply (of_row_touched now a r).
Qed.

(** X15. Of two heartbeats of one agent the later call decides: the
    world after both is the world after the second alone. *)
Theorem update_last_active_last_wins (t1 t2 : Z) (a : string) (w : World) :
  update_last_active t2 a (snd (update_last_active t1 a w))
  = update_last_active t2 a w.
Proof.
  unfold update_last_active. cbn [snd db repo calls]. do 2 f_equal.
  unfold set_last_active. rewrite map_map. apply map_ext. intros r.
  destruct (String.eqb (row_agent_id r) a) eqn:E; cbn; now rewrite E.
Qed.

End Listing.

Section Sweeps.

Context `{Host}.

Lemma sweep_all_fresh now T wts :
  forall cleaned w,
    Forall (fun wt => is_stale now T wt = false) wts ->
    sweep now T wts cleaned w = (Returns cleaned, w).
Proof.
  induction wts as [|wt rest IH]; intros cleaned w Hall; [reflexivity|].
  inversion Hall as [|? ? Hwt Hrest]; subst.
  rewrite (sweep_step_fresh _ _ _ _ _ _ Hwt). now apply IH.
Qed.

(** X11. When no record is stale at the clock reading and threshold of
    the call, in particular on an empty table, [cleanup_stale_worktrees]
    returns 0 and the world is the one from before: no row touched, no
    [git] invocation. *)
Theorem cleanup_nothing_stale (now T : Z) (w : World) :
  (forall r, In r (db w) -> is_stale now T (of_row r) = false) ->
  cleanup_stale_worktrees now T w = (Returns 0%Z, w).
Proof.
  intros Hfresh. unfold cleanup_stale_worktrees, bind, list_worktrees.
  apply sweep_all_fresh. apply Forall_forall. intros wt Hwt.
  apply in_map_iff in Hwt. destruct Hwt as (r & <- & Hr).
  apply Hfresh. now apply order_by_In.
Qed.

(** X13. A heartbeat protects an agent from the sweep: on a table with
    one row per agent, after [update_last_active] at clock reading [now]
    a [cleanup_stale_worktrees] whose clock reading is at most the
    threshold later leaves the agent's record, with the new [last_active],
    in the table. *)
Theorem heartbeat_survives_sweep (now later T : Z) (a : string) (w : World)
    (r : Row) :
  NoDup (map row_agent_id (db w)) ->
  select_one a (db w) = Some r ->
  (later - now <= T * MINUTE)%Z ->
  In (touched now r)
     (db (snd (cleanup_stale_worktrees later T
                 (snd (update_last_active now a w))))).
Proof.
  intros Hkeys Hsel Hsoon.
  set (w1 := snd (update_last_active now a w)).
  assert (Hkeys1 : NoDup (map row_agent_id (db w1)))
    by now apply update_last_active_keys.
  assert (Hin1 : In (touched now r) (db w1)).
  { apply (select_one_In a). unfold w1, update_last_active. cbn [snd db].
    rewrite select_one_set_last_active, Hsel. cbn.
    apply select_one_key in Hsel. now rewrite Hsel, String.eqb_refl. }
  assert (Hfresh : is_stale later T (of_row (touched now r)) = false).
  { unfold is_stale. cbn. apply Z.ltb_ge. exact Hsoon. }
  unfold cleanup_stale_worktrees, bind, list_worktrees.
  destruct (sweep_rows later T (order_by_created_at_desc (db w1)) 0%Z w1 Hkeys1)
    as (removed & log & w' & Hrun & Hdb & _ & _ & _ & Hrem & _).
  { apply (Permutation_NoDup (l := map row_agent_id (db w1))); [|exact Hkeys1].
    apply Permutation_map, Permutation_sym, order_by_perm. }
  { intros x Hx. now apply order_by_In. }
  cbn beta iota. rewrite Hrun. cbn [snd]. rewrite Hdb.
  unfold without. apply filter_In. split; [exact Hin1|].
  apply negb_true_iff. unfold mentions.
  destruct (existsb _ removed) eqn:E; [|reflexivity].
  apply existsb_exists in E. destruct E as (k & Hk & Heq).
  apply String.eqb_eq in Heq. subst k.
  destruct (Hrem _ Hk) as (x & Hx & Hkey & Hsx & _).
  apply (proj1 (order_by_In _ _)) in Hx.
  rewrite (same_key_same_row _ _ _ Hkeys1 Hx Hin1 Hkey) in Hsx. congruence.
Qed.

End Sweeps.

Section Invariant.

Context `{Host}.

Lemma registry_ok_filter self f rows :
  registry_ok self rows -> registry_ok self (filter f rows).
Proof.
  intros [Hnd Hall]. split.
  - clear Hall. induction rows as [|x xs IH]; [constructor|].
    cbn in *. inversion Hnd as [|? ? Hnotin Hnd']; subst.
    destruct (f x); cbn; [|now apply IH].
    constructor; [|now apply IH].
    intros Hin. apply Hnotin. apply in_map_iff in Hin.
    destruct Hin as (y & Hkey & Hy). apply filter_In in Hy.
    rewrite <- Hkey. apply in_map. tauto.
  - apply Forall_forall. intros r Hr. apply filter_In in Hr.
    exact (proj1 (Forall_forall _ _) Hall r (proj1 Hr)).
Qed.

Lemma registry_ok_create self now a base_branch w :
  registry_ok self (db w) ->
  registry_ok self (db (snd (create_worktree self now a base_branch w))).
Proof.
  intros Hok. pose proof Hok as [Hnd Hall].
  destruct (create_worktree_db self now a base_branch w) as [-> | [Hsel ->]];
    [exact Hok|].
  split.
  - apply (insert_row_keys (new_row self now a) (db w)); [exact Hnd|].
    unfold insert_row. cbn [row_agent_id new_row]. now rewrite Hsel.
  - apply Forall_app. split; [exact Hall|].
    constructor; [|constructor]. now repeat split.
Qed.

Lemma registry_ok_update self now a w :
  registry_ok self (db w) ->
  registry_ok self (db (snd (update_last_active now a w))).
Proof.
  intros [Hnd Hall]. cbn [snd update_last_active db]. split.
  - now rewrite set_last_active_keys.
  - unfold set_last_active. apply Forall_forall. intros r Hr.
    apply in_map_iff in Hr. destruct Hr as (x & <- & Hx).
    pose proof (proj1 (Forall_forall _ _) Hall x Hx) as Hrow.
    now destruct (String.eqb (row_agent_id x) a).
Qed.

Lemma detect_conflicts_db a target_branch w :
  db (snd (detect_conflicts a target_branch w)) = db w.
Proof.
  destruct (select_one a (db w)) as [r|] eqn:Hsel.
  - rewrite (detect_conflicts_run _ _ _ _ Hsel). cbn zeta.
    now destruct (run_git (repo w) _).
  - unfold detect_conflicts, bind, _get_worktree. now rewrite Hsel.
Qed.

Lemma registry_ok_cleanup self now T w :
  registry_ok self (db w) ->
  registry_ok self (db (snd (cleanup_stale_worktrees now T w))).
Proof.
  intros Hok. pose proof Hok as [Hnd _].
  unfold cleanup_stale_worktrees, bind, list_worktrees.
  destruct (sweep_rows now T (order_by_created_at_desc (db w)) 0%Z w Hnd)
    as (removed & log & w' & Hrun & Hdb & _).
  { apply (Permutation_NoDup (l := map row_agent_id (db w))); [|exact Hnd].
    apply Permutation_map, Permutation_sym, order_by_perm. }
  { intros x Hx. now apply order_by_In. }
  cbn beta iota. rewrite Hrun. cbn [snd]. rewrite Hdb.
  now apply registry_ok_filter.
Qed.

Lemma registry_ok_after self c w :
  registry_ok self (db w) -> registry_ok self (db (after self c w)).
Proof.
  intros Hok. destruct c as [now a b | a force | | a t | now a | now T];
    cbn [after].
  - now apply registry_ok_create.
  - destruct (remove_worktree_db a force w) as [-> | ->];
      [exact Hok | now apply registry_ok_filter].
  - exact Hok.
  - now rewrite detect_conflicts_db.
  - now apply registry_ok_update.
  - now apply registry_ok_cleanup.
Qed.

(** X14. Whatever sequence of calls is made on one manager, returning
    or raising, a table that has one row per agent, each with the path
    [worktree_base_dir / ("worktree-" + agent_id)], the branch
    ["agent-" + agent_id] and the status ["active"], is still such a table
    afterwards; no call ever stores another status, path or branch. *)
Theorem registry_stays_ok (self : GitWorktreeManager) (cs : list command)
    (w : World) :
  registry_ok self (db w) -> registry_ok self (db (after_all self cs w)).
Proof.
  unfold after_all. revert w.
  induction cs as [|c cs IH]; intros w Hok; [exact Hok|].
  cbn [fold_left]. apply IH. now apply registry_ok_after.
Qed.

End Invariant.

(** ** The staleness test and its roundings *)

Section Staleness.

Context `{Host}.

Local Open Scope Z_scope.

Lemma nearest_even_le n d c :
  0 < d -> n <= c * d -> Binary64.nearest_even n d <= c.
Proof.
  intros Hd Hle. unfold Binary64.nearest_even.
  pose proof (Z.div_mod n d ltac:(lia)) as Hdm.
  pose proof (Z.mod_pos_bound n d Hd) as Hr.
  assert (Hq : n / d <= c) by (apply Z.div_le_upper_bound; lia).
  destruct (2 * (n mod d) <? d) eqn:E1; [exact Hq|].
  apply Z.ltb_ge in E1.
  assert (Hlt : n / d < c) by nia.
  destruct (d <? 2 * (n mod d)); [lia|]. destruct (Z.even (n / d)); lia.
Qed.

Lemma nearest_even_ge n d c :
  0 < d -> c * d <= n -> c <= Binary64.nearest_even n d.
Proof.
  intros Hd Hle. unfold Binary64.nearest_even.
  assert (Hq : c <= n / d) by (apply Z.div_le_lower_bound; lia).
  destruct (2 * (n mod d) <? d); [exact Hq|].
  destruct (d <? 2 * (n mod d)); [lia|]. destruct (Z.even (n / d)); lia.
Qed.

Lemma floor_log2_below p q :
  0 < q -> 0 <= Binary64.floor_log2 p q ->
  q * 2 ^ Binary64.floor_log2 p q <= Z.abs p.
Proof.
  intros Hq. unfold Binary64.floor_log2.
  set (a := Z.log2 (Z.abs p)). set (b := Z.log2 q).
  pose proof (Z.log2_nonneg q) as Hb. fold b in Hb.
  destruct (0 <=? a - b) eqn:El.
  - apply Z.leb_le in El.
    destruct (q * 2 ^ (a - b) <=? Z.abs p) eqn:Et.
    + intros _. now apply Z.leb_le.
    + intros Hf.
      assert (Ha : 0 < Z.abs p).
      { destruct (Z.eq_dec (Z.abs p) 0) as [E0|]; [|lia].
        unfold a in Hf. rewrite E0 in Hf. cbn in Hf. lia. }
      pose proof (Z.log2_spec _ Ha) as [Hlo _]. fold a in Hlo.
      pose proof (Z.log2_spec _ Hq) as [_ Hhi]. fold b in Hhi.
      assert (Hpow : 2 ^ a = 2 ^ Z.succ b * 2 ^ (a - b - 1)).
      { rewrite <- Z.pow_add_r by lia. f_equal. lia. }
      assert (Hpos : 0 < 2 ^ (a - b - 1)) by (apply Z.pow_pos_nonneg; lia).
      nia.
  - apply Z.leb_gt in El.
    destruct (q <=? Z.abs p * 2 ^ (- (a - b))); lia.
Qed.

(** A quotient below [2 ^ (53 - S)] is rounded on a grid of step
    [2 ^ (- S)] or finer. *)
Lemma exponent_bound p q S :
  0 < q -> 0 <= S <= 53 -> Z.abs p * 2 ^ S < q * 2 ^ 53 ->
  Binary64.floor_log2 p q - 52 <= - S.
Proof.
  intros Hq HS Hlt.
  destruct (Z_le_gt_dec (Binary64.floor_log2 p q - 52) (- S)) as [|Hgt];
    [assumption|].
  exfalso.
  assert (Hf : 0 <= Binary64.floor_log2 p q) by lia.
  pose proof (floor_log2_below p q Hq Hf) as Hlow.
  assert (Hmono : 2 ^ 53 <= 2 ^ (Binary64.floor_log2 p q + S))
    by (apply Z.pow_le_mono_r; lia).
  rewrite Z.pow_add_r in Hmono by lia.
  assert (HpS : 0 < 2 ^ S) by (apply Z.pow_pos_nonneg; lia).
  assert (Hpf : 0 < 2 ^ Binary64.floor_log2 p q)
    by (apply Z.pow_pos_nonneg; lia).
  nia.
Qed.

Lemma round_ratio_fine p q :
  Binary64.floor_log2 p q - 52 <= 0 ->
  Binary64.round_ratio p q
  = Binary64.mkDouble
      (Binary64.nearest_even (p * 2 ^ (- (Binary64.floor_log2 p q - 52))) q)
      (Binary64.floor_log2 p q - 52).
Proof.
  intros Hk. unfold Binary64.round_ratio.
  destruct (0 <=? Binary64.floor_log2 p q - 52) eqn:E; [|reflexivity].
  apply Z.leb_le in E.
  assert (E0 : Binary64.floor_log2 p q - 52 = 0) by lia.
  rewrite E0. cbn [Z.opp]. now rewrite Z.pow_0_r, !Z.mul_1_r.
Qed.

Lemma truediv_int_fine x n :
  Binary64.expo x <= 0 ->
  Binary64.truediv_int x n
  = Binary64.round_ratio (Binary64.mant x) (n * 2 ^ (- Binary64.expo x)).
Proof.
  intros Hk. unfold Binary64.truediv_int.
  destruct (0 <=? Binary64.expo x) eqn:E; [|reflexivity].
  apply Z.leb_le in E. assert (E0 : Binary64.expo x = 0) by lia.
  rewrite E0. cbn [Z.opp]. now rewrite Z.pow_0_r, !Z.mul_1_r.
Qed.

Lemma gt_int_fine x n :
  Binary64.expo x <= 0 ->
  Binary64.gt_int x n = (n * 2 ^ (- Binary64.expo x) <? Binary64.mant x).
Proof.
  intros Hk. unfold Binary64.gt_int.
  destruct (0 <=? Binary64.expo x) eqn:E; [|reflexivity].
  apply Z.leb_le in E. assert (E0 : Binary64.expo x = 0) by lia.
  rewrite E0. cbn [Z.opp]. now rewrite Z.pow_0_r, !Z.mul_1_r.
Qed.

Lemma pow2_split s n : 0 <= n <= s -> 2 ^ s = 2 ^ n * 2 ^ (s - n).
Proof. intros Hn. rewrite <- Z.pow_add_r by lia. f_equal. lia. Qed.

(** An inactivity of at most the threshold is never rounded above it. *)
Lemma rounded_test_sound d T :
  Z.abs d <= 2 ^ 62 -> d <= 60000000 * T ->
  Binary64.gt_int (Binary64.truediv_int (Binary64.total_seconds d) 60) T = false.
Proof.
  intros Hd Hle. unfold Binary64.total_seconds.
  change (2 ^ 62) with 4611686018427387904 in Hd.
  assert (Hk1 : Binary64.floor_log2 d 1000000 - 52 <= - 0).
  { apply (exponent_bound d 1000000 0); [lia | lia |].
    change (2 ^ 0) with 1. change (2 ^ 53) with 9007199254740992. lia. }
  rewrite (round_ratio_fine d 1000000) by lia.
  set (s1 := - (Binary64.floor_log2 d 1000000 - 52)) in *.
  assert (Hs1 : 0 <= s1) by (unfold s1; lia).
  assert (HP1 : 0 < 2 ^ s1) by (apply Z.pow_pos_nonneg; lia).
  set (P1 := 2 ^ s1) in *.
  set (m1 := Binary64.nearest_even (d * P1) 1000000).
  assert (Hm1 : m1 <= 60 * T * P1) by (apply nearest_even_le; nia).
  assert (Hm1hi : m1 <= 9007199254740992 * P1) by (apply nearest_even_le; nia).
  assert (Hm1lo : - 9007199254740992 * P1 <= m1)
    by (apply nearest_even_ge; nia).
  rewrite truediv_int_fine by (cbn [Binary64.expo]; lia).
  cbn [Binary64.mant Binary64.expo]. fold s1. fold P1.
  assert (Hk2 : Binary64.floor_log2 m1 (60 * P1) - 52 <= - 0).
  { apply (exponent_bound m1 (60 * P1) 0); [lia | lia |].
    change (2 ^ 0) with 1. change (2 ^ 53) with 9007199254740992. lia. }
  rewrite (round_ratio_fine m1 (60 * P1)) by lia.
  rewrite gt_int_fine by (cbn [Binary64.expo]; lia).
  cbn [Binary64.mant Binary64.expo].
  set (s2 := - (Binary64.floor_log2 m1 (60 * P1) - 52)) in *.
  assert (HP2 : 0 < 2 ^ s2) by (apply Z.pow_pos_nonneg; unfold s2; lia).
  set (P2 := 2 ^ s2) in *.
  apply Z.ltb_ge. apply nearest_even_le; [lia|]. nia.
Qed.

(** Below [2 ^ 51] microseconds an inactivity above the threshold stays
    above it through both roundings. *)
Lemma rounded_test_complete d T :
  Z.abs d <= 2 ^ 51 -> 60000000 * T < d ->
  Binary64.gt_int (Binary64.truediv_int (Binary64.total_seconds d) 60) T = true.
Proof.
  intros Hd Hlt. unfold Binary64.total_seconds.
  change (2 ^ 51) with 2251799813685248 in Hd.
  assert (Hk1 : Binary64.floor_log2 d 1000000 - 52 <= - 20).
  { apply (exponent_bound d 1000000 20); [lia | lia |].
    change (2 ^ 20) with 1048576. change (2 ^ 53) with 9007199254740992. lia. }
  rewrite (round_ratio_fine d 1000000) by lia.
  set (s1 := - (Binary64.floor_log2 d 1000000 - 52)) in *.
  assert (Hs1 : 20 <= s1) by (unfold s1; lia).
  pose proof (pow2_split s1 20 ltac:(lia)) as HP1.
  change (2 ^ 20) with 1048576 in HP1.
  assert (HR1 : 0 < 2 ^ (s1 - 20)) by (apply Z.pow_pos_nonneg; lia).
  set (R1 := 2 ^ (s1 - 20)) in *. set (P1 := 2 ^ s1) in *.
  set (m1 := Binary64.nearest_even (d * P1) 1000000).
  assert (Hm1 : (60 * T * 1048576 + 1) * R1 <= m1)
    by (apply nearest_even_ge; nia).
  assert (Hm1hi : m1 <= 4294967296 * P1) by (apply nearest_even_le; nia).
  assert (Hm1lo : - 4294967296 * P1 <= m1) by (apply nearest_even_ge; nia).
  rewrite truediv_int_fine by (cbn [Binary64.expo]; lia).
  cbn [Binary64.mant Binary64.expo]. fold s1. fold P1.
  assert (Hk2 : Binary64.floor_log2 m1 (60 * P1) - 52 <= - 26).
  { apply (exponent_bound m1 (60 * P1) 26); [lia | lia |].
    change (2 ^ 26) with 67108864. change (2 ^ 53) with 9007199254740992. lia. }
  rewrite (round_ratio_fine m1 (60 * P1)) by lia.
  rewrite gt_int_fine by (cbn [Binary64.expo]; lia).
  cbn [Binary64.mant Binary64.expo].
  set (s2 := - (Binary64.floor_log2 m1 (60 * P1) - 52)) in *.
  assert (Hs2 : 26 <= s2) by (unfold s2; lia).
  pose proof (pow2_split s2 26 ltac:(lia)) as HP2.
  change (2 ^ 26) with 67108864 in HP2.
  assert (HR2 : 0 < 2 ^ (s2 - 26)) by (apply Z.pow_pos_nonneg; lia).
  set (R2 := 2 ^ (s2 - 26)) in *. set (P2 := 2 ^ s2) in *.
  apply Z.ltb_lt.
  assert (Hm2 : (T * 67108864 + 1) * R2
                <= Binary64.nearest_even (m1 * P2) (60 * P1)).
  { apply nearest_even_ge; [lia|]. rewrite HP2, HP1. nia. }
  nia.
Qed.

Lemma is_stale_agrees now T wt :
  Z.abs (now - last_active wt) <= 2 ^ 51 ->
  Binary64.is_stale now T wt = is_stale now T wt.
Proof.
  intros Hd. unfold Binary64.is_stale, Binary64.inactive_minutes, is_stale, MINUTE.
  destruct (T * 60000000 <? now - last_active wt) eqn:E.
  - apply Z.ltb_lt in E. apply rounded_test_complete; lia.
  - apply Z.ltb_ge in E. apply rounded_test_sound; [|lia].
    change (2 ^ 51) with 2251799813685248 in Hd.
    change (2 ^ 62) with 4611686018427387904. lia.
Qed.

Lemma sweep_agrees now T wts :
  Forall (fun wt => Binary64.is_stale now T wt = is_stale now T wt) wts ->
  forall cleaned w,
    Binary64.sweep now T wts cleaned w = sweep now T wts cleaned w.
Proof.
  induction 1 as [|wt rest Hwt _ IH]; intros cleaned w; [reflexivity|].
  cbn [Binary64.sweep sweep]. rewrite Hwt.
  destruct (is_stale now T wt); [|apply IH].
  unfold bind, try_.
  destruct (remove_worktree (agent_id wt) true w) as [[u|e] w1]; apply IH.
Qed.

Lemma cleanup_agrees now T w :
  (forall r, In r (db w) -> Z.abs (now - row_last_active r) <= 2 ^ 51) ->
  Binary64.cleanup_stale_worktrees now T w = cleanup_stale_worktrees now T w.
Proof.
  intros Hbound.
  unfold Binary64.cleanup_stale_worktrees, cleanup_stale_worktrees, bind,
    list_worktrees.
  apply sweep_agrees. apply Forall_forall. intros wt Hwt.
  apply in_map_iff in Hwt. destruct Hwt as (r & <- & Hr).
  apply is_stale_agrees. cbn [last_active of_row]. apply Hbound.
  now apply order_by_In.
Qed.

Lemma is_stale_lt now T r :
  is_stale now T (of_row r) = true <-> T * MINUTE < now - row_last_active r.
Proof. unfold is_stale. cbn [last_active of_row]. apply Z.ltb_lt. Qed.

Lemma filter_split_length {A : Type} (f : A -> bool) (l : list A) :
  (List.length (filter f l) + List.length (filter (fun x => negb (f x)) l)
   = List.length l)%nat.
Proof.
  induction l as [|x xs IH]; [reflexivity|].
  cbn. destruct (f x); cbn; lia.
Qed.

(** Every external step of the sweep is a step for a stale row of the
    snapshot. *)
Lemma sweep_rows_log now T rs :
  forall cleaned w,
    NoDup (map row_agent_id (db w)) ->
    NoDup (map row_agent_id rs) ->
    incl rs (db w) ->
    exists log,
      calls (snd (sweep now T (map of_row rs) cleaned w)) = calls w ++ log
      /\ forall cmd result, In (cmd, result) log ->
           exists r, In r rs /\ is_stale now T (of_row r) = true
                     /\ (cmd = remove_cmd (of_row r) true
                         \/ cmd = branch_cmd (of_row r)).
Proof.
  induction rs as [|r rs IH]; intros cleaned w Hkeys Hsnap Hincl.
  - exists []. cbn. rewrite app_nil_r. split; [reflexivity | intros ? ? []].
  - cbn [map] in *. inversion Hsnap as [|? ? Hnew Hsnap']; subst.
    assert (Hin : In r (db w)) by (apply Hincl; now left).
    assert (Hrest : incl rs (db w)) by (intros x Hx; apply Hincl; now right).
    assert (Hlift : forall pre w1 cleaned1,
               NoDup (map row_agent_id (db w1)) -> incl rs (db w1) ->
               calls w1 = calls w ++ pre ->
               (forall cmd result, In (cmd, result) pre ->
                  is_stale now T (of_row r) = true
                  /\ (cmd = remove_cmd (of_row r) true
                      \/ cmd = branch_cmd (of_row r))) ->
               exists log,
                 calls (snd (sweep now T (map of_row rs) cleaned1 w1))
                 = calls w ++ log
                 /\ forall cmd result, In (cmd, result) log ->
                      exists x, In x (r :: rs) /\ is_stale now T (of_row x) = true
                                /\ (cmd = remove_cmd (of_row x) true
                                    \/ cmd = branch_cmd (of_row x))).
    { intros pre w1 cleaned1 Hk1 Hi1 Hc1 Hpre.
      destruct (IH cleaned1 w1 Hk1 Hsnap' Hi1) as (log & Hlog & Hcmds).
      exists (pre ++ log). split; [now rewrite Hlog, Hc1, app_assoc|].
      intros cmd result Hcall. apply in_app_or in Hcall.
      destruct Hcall as [Hcall | Hcall].
      - exists r. destruct (Hpre _ _ Hcall) as [Hs Hc].
        conjs; [now left | exact Hs | exact Hc].
      - destruct (Hcmds _ _ Hcall) as (x & Hx & Hs & Hc).
        exists x. conjs; [now right | exact Hs | exact Hc]. }
    destruct (is_stale now T (of_row r)) eqn:Est.
    + rewrite (sweep_step_stale _ _ _ _ _ _ Est).
      change (agent_id (of_row r)) with (row_agent_id r).
      rewrite (remove_worktree_run _ _ _ _
                 (select_one_unique _ _ _ Hkeys Hin eq_refl)).
      cbn zeta.
      destruct (run_git (repo w) (remove_cmd (of_row r) true)) as [g1 r1].
      destruct (returncode r1 =? 0).
      * destruct (run_git g1 (branch_cmd (of_row r))) as [g2 r2].
        destruct (returncode r2 =? 0).
        -- apply (Hlift [(remove_cmd (of_row r) true, r1);
                         (branch_cmd (of_row r), r2)]).
           ++ cbn [db]. now apply delete_rows_keys.
           ++ intros x Hx. cbn [db]. apply filter_In.
              split; [now apply Hrest|].
              apply negb_true_iff, String.eqb_neq. intros Heq. apply Hnew.
              rewrite <- Heq. now apply in_map.
           ++ cbn [calls]. now rewrite <- app_assoc.
           ++ intros cmd result [Hc | [Hc | []]]; injection Hc as <- _; auto.
        -- apply (Hlift [(remove_cmd (of_row r) true, r1);
                         (branch_cmd (of_row r), r2)]);
             [exact Hkeys | exact Hrest | cbn [calls]; now rewrite <- app_assoc |].
           intros cmd result [Hc | [Hc | []]]; injection Hc as <- _; auto.
      * apply (Hlift [(remove_cmd (of_row r) true, r1)]);
          [exact Hkeys | exact Hrest | reflexivity |].
        intros cmd result [Hc | []]. injection Hc as <- _. auto.
    + rewrite (sweep_step_fresh _ _ _ _ _ _ Est).
      destruct (Hlift [] w cleaned Hkeys Hrest) as (log & Hlog & Hcmds).
      * now rewrite app_nil_r.
      * intros ? ? [].
      * now exists log.
Qed.

(** X17. For any two clock readings that [datetime] can hold, the test
    of the source calls a record stale only if its inactivity exceeds the
    threshold in minutes; and for an inactivity of up to [2 ^ 51]
    microseconds, about 71 years, it calls stale every record whose
    inactivity exceeds the threshold, be it by one microsecond. *)
Theorem staleness_test_is_exact (now T : Z) (wt : WorktreeInfo) :
  (Z.abs (now - last_active wt) <= 2 ^ 62 ->
   Binary64.is_stale now T wt = true ->
   T * MINUTE < now - last_active wt)
  /\ (Z.abs (now - last_active wt) <= 2 ^ 51 ->
      T * MINUTE < now - last_active wt ->
      Binary64.is_stale now T wt = true).
Proof.
  unfold Binary64.is_stale, Binary64.inactive_minutes, MINUTE. split.
  - intros Hd Hs.
    destruct (Z_lt_le_dec (T * 60000000) (now - last_active wt)) as [|Hle];
      [assumption|].
    rewrite rounded_test_sound in Hs by lia. discriminate.
  - intros Hd Hlt. apply rounded_test_complete; lia.
Qed.

(** X12. On a table with one row per agent and inactivities of up to
    [2 ^ 51] microseconds: when [cleanup_stale_worktrees] has returned and
    every [git] invocation it made returned zero, the table is the old one
    without the rows whose inactivity exceeds the threshold in minutes, the
    other rows unchanged and in their order, and the number returned is the
    number of rows whose inactivity exceeds it. *)
Theorem cleanup_when_git_obliges (now T : Z) (w w' : World) (n : Z)
    (log : list call) :
  NoDup (map row_agent_id (db w)) ->
  (forall r, In r (db w) -> Z.abs (now - row_last_active r) <= 2 ^ 51) ->
  Binary64.cleanup_stale_worktrees now T w = (Returns n, w') ->
  calls w' = calls w ++ log ->
  (forall cmd result, In (cmd, result) log -> returncode result = 0) ->
  db w' = filter (fun r => now - row_last_active r <=? T * MINUTE) (db w)
  /\ n = Z.of_nat
           (List.length
              (filter (fun r => T * MINUTE <? now - row_last_active r) (db w))).
Proof.
  intros Hkeys Hbound Hrun Hlog Hzero.
  rewrite (cleanup_agrees now T w Hbound) in Hrun.
  destruct (exact_sweep now T w Hkeys)
    as (removed & log0 & w0 & Hrun0 & Hdb & Hlog0 & Hlen & _ & Hsplit & Hown & Hst).
  rewrite Hrun0 in Hrun. injection Hrun as Hn Hw. subst w0 n.
  rewrite Hlog0 in Hlog. apply app_inv_head in Hlog. subst log0.
  assert (Hall : forall r, In r (db w) ->
                   (In (row_agent_id r) removed
                    <-> is_stale now T (of_row r) = true)).
  { intros r Hr. split.
    - intros Hmem. now apply Hown.
    - intros Hs. destruct (Hsplit r Hr) as [Hstill | Hmem]; [|exact Hmem].
      destruct (Hst r Hr Hs) as [_ Hfail].
      destruct (Hfail Hstill) as (cmd & result & Hcall & _ & Hnz).
      exfalso. apply Hnz. now apply (Hzero cmd result). }
  assert (Hdb' : db w'
                 = filter (fun r => negb (is_stale now T (of_row r))) (db w)).
  { rewrite Hdb. unfold without. apply filter_ext_in. intros r Hr. f_equal.
    unfold mentions. destruct (is_stale now T (of_row r)) eqn:Es.
    - apply existsb_exists. exists (row_agent_id r).
      split; [now apply Hall | apply String.eqb_refl].
    - destruct (existsb _ removed) eqn:E; [|reflexivity].
      apply existsb_exists in E. destruct E as (k & Hk & Heq).
      apply String.eqb_eq in Heq. subst k.
      apply (Hall r Hr) in Hk. congruence. }
  split.
  - rewrite Hdb'. apply filter_ext. intros r.
    unfold is_stale. cbn [last_active of_row]. symmetry. apply Z.leb_antisym.
  - pose proof (filter_split_length (fun r => is_stale now T (of_row r)) (db w))
      as Hpart.
    cbn beta in Hpart. rewrite <- Hdb' in Hpart.
    assert (Hcount : List.length removed
                     = List.length
                         (filter (fun r => is_stale now T (of_row r)) (db w)))
      by lia.
    now rewrite Hcount.
Qed.

(** X16. On a table with one row per agent and inactivities of up to
    [2 ^ 51] microseconds, [cleanup_stale_worktrees] never raises.  It runs
    the forced [git worktree remove] for every row whose inactivity exceeds
    the threshold in minutes, whatever happened to the rows before it, and
    runs no external step for any other row.  The rows it deletes are rows
    of such agents whose two external steps both returned zero; such a row
    that is still in the table had an external step return a nonzero code.
    Every row whose inactivity does not exceed the threshold is still in
    the table; the rows that stay are unchanged and in their order.  The
    number returned is the number of agents whose rows were deleted, which
    is the number of rows by which the table shrank. *)
Theorem cleanup_sweeps_past_failures (now T : Z) (w : World) :
  NoDup (map row_agent_id (db w)) ->
  (forall r, In r (db w) -> Z.abs (now - row_last_active r) <= 2 ^ 51) ->
  exists removed log w',
    Binary64.cleanup_stale_worktrees now T w
    = (Returns (Z.of_nat (List.length removed)), w')
    /\ db w' = without removed (db w)
    /\ calls w' = calls w ++ log
    /\ (List.length (db w') + List.length removed = List.length (db w))%nat
    /\ (forall r, In r (db w) -> now - row_last_active r <= T * MINUTE ->
          In r (db w'))
    /\ (forall r, In r (db w) -> In (row_agent_id r) removed ->
          ~ In r (db w')
          /\ T * MINUTE < now - row_last_active r /\ torn_down log r)
    /\ (forall r, In r (db w) -> T * MINUTE < now - row_last_active r ->
          attempted log r /\ (In r (db w') -> failed log r))
    /\ (forall cmd result, In (cmd, result) log ->
          exists r, In r (db w) /\ T * MINUTE < now - row_last_active r
                    /\ (cmd = remove_cmd (of_row r) true
                        \/ cmd = branch_cmd (of_row r))).
Proof.
  intros Hkeys Hbound.
  rewrite (cleanup_agrees now T w Hbound).
  destruct (exact_sweep now T w Hkeys)
    as (removed & log & w' & Hrun & Hdb & Hlog & Hlen & Hfresh & _ & Hown & Hst).
  destruct (sweep_rows_log now T (order_by_created_at_desc (db w)) 0 w Hkeys)
    as (log2 & Hlog2 & Hcmds).
  { apply (Permutation_NoDup (l := map row_agent_id (db w))); [|exact Hkeys].
    apply Permutation_map, Permutation_sym, order_by_perm. }
  { intros x Hx. now apply order_by_In. }
  change (sweep now T (map of_row (order_by_created_at_desc (db w))) 0 w)
    with (cleanup_stale_worktrees now T w) in Hlog2.
  rewrite Hrun in Hlog2. cbn [snd] in Hlog2.
  rewrite Hlog in Hlog2. apply app_inv_head in Hlog2. subst log2.
  exists removed, log, w'. conjs; try assumption.
  - intros r Hr Hle. apply (Hfresh r Hr).
    destruct (is_stale now T (of_row r)) eqn:Es; [|reflexivity].
    apply is_stale_lt in Es. lia.
  - intros r Hr Hmem. destruct (Hown r Hr Hmem) as (Hgone & Hs & Ht).
    conjs; [exact Hgone | now apply is_stale_lt | exact Ht].
  - intros r Hr Hlt. apply (Hst r Hr). now apply is_stale_lt.
  - intros cmd result Hcall.
    destruct (Hcmds cmd result Hcall) as (r & Hr & Hs & Hc).
    exists r. conjs; [now apply order_by_In | now apply is_stale_lt | exact Hc].
Qed.

End Staleness.

(** ** The further properties at concrete inputs *)

Lemma create_then_remove_restores_witness :
  db (snd (remove_worktree "a1" false (Sim.with_a1 Sim.morning Sim.ok)))
  = db (Sim.fresh Sim.ok).
Proof.
  apply (create_then_remove_restores Sim.manager Sim.morning "a1" "main" false
           (Sim.fresh Sim.ok) (Sim.with_a1 Sim.morning Sim.ok)
           (snd (remove_worktree "a1" false (Sim.with_a1 Sim.morning Sim.ok)))
           "/srv/worktrees/worktree-a1").
  - vm_compute. reflexivity.
  - vm_compute. reflexivity.
Defined.

Lemma other_agents_untouched_witness :
  _get_worktree "a2"
    (snd (create_worktree Sim.manager Sim.noon "a4" "main" Sim.three_agents))
  = (fst (_get_worktree "a2" Sim.three_agents),
     snd (create_worktree Sim.manager Sim.noon "a4" "main" Sim.three_agents))
  /\ _get_worktree "a2" (snd (remove_worktree "a4" true Sim.three_agents))
     = (fst (_get_worktree "a2" Sim.three_agents),
        snd (remove_worktree "a4" true Sim.three_agents)).
Proof.
  apply (other_agents_untouched Sim.manager Sim.noon "a4" "a2" "main" true
           Sim.three_agents).
  discriminate.
Defined.

Lemma detect_conflicts_missing_record_witness :
  detect_conflicts "ghost" "main" (Sim.with_a1 Sim.morning Sim.ok)
  = (Raises (ValueError "Worktree does not exist for agent ghost"),
     Sim.with_a1 Sim.morning Sim.ok).
Proof.
  apply (detect_conflicts_missing_record "ghost" "main"
           (Sim.with_a1 Sim.morning Sim.ok)).
  vm_compute. reflexivity.
Defined.

Lemma detect_conflicts_no_phrase_witness :
  fst (detect_conflicts "a1" "nowhere"
         (Sim.with_a1 Sim.morning (Sim.fatal "fatal: not a valid object name")))
  = Returns [].
Proof.
  apply (detect_conflicts_no_phrase "a1" "nowhere"
           (Sim.with_a1 Sim.morning (Sim.fatal "fatal: not a valid object name"))
           (Sim.row_of "a1" Sim.morning)).
  - vm_compute. reflexivity.
  - vm_compute. reflexivity.
Defined.

Lemma detect_conflicts_per_line_witness :
  fst (detect_conflicts "a1" "main" (Sim.with_a1 Sim.morning Sim.report_conflict))
  = Returns
      (map (fun line => content_conflict (Py.last_item (Py.split line)))
           (filter qualifies (Py.split_on LF (stdout Sim.report_conflict)))).
Proof.
  apply (detect_conflicts_per_line "a1" "main"
           (Sim.with_a1 Sim.morning Sim.report_conflict)
           (Sim.row_of "a1" Sim.morning)).
  - vm_compute. reflexivity.
  - vm_compute. reflexivity.
Defined.

Lemma cleanup_nothing_stale_witness :
  cleanup_stale_worktrees (Sim.morning + 60 * MINUTE) 60 Sim.three_agents
  = (Returns 0%Z, Sim.three_agents).
Proof.
  apply (cleanup_nothing_stale (Sim.morning + 60 * MINUTE) 60 Sim.three_agents).
  intros r [<- | [<- | [<- | []]]]; vm_compute; reflexivity.
Defined.

Lemma with_a1_keys :
  NoDup (map row_agent_id (db (Sim.with_a1 Sim.morning Sim.ok))).
Proof.
  vm_compute. repeat constructor. intros [].
Defined.

Lemma heartbeat_survives_sweep_witness :
  In (touched (Sim.morning + 120 * MINUTE) (Sim.row_of "a1" Sim.morning))
     (db (snd (cleanup_stale_worktrees Sim.noon 60
                 (snd (update_last_active (Sim.morning + 120 * MINUTE) "a1"
                         (Sim.with_a1 Sim.morning Sim.ok)))))).
Proof.
  apply (heartbeat_survives_sweep (Sim.morning + 120 * MINUTE) Sim.noon 60 "a1"
           (Sim.with_a1 Sim.morning Sim.ok) (Sim.row_of "a1" Sim.morning)).
  - exact with_a1_keys.
  - vm_compute. reflexivity.
  - vm_compute. discriminate.
Defined.

Lemma registry_stays_ok_witness :
  registry_ok Sim.manager
    (db (after_all Sim.manager
           [CreateWorktree Sim.morning "a1" "main";
            CreateWorktree Sim.morning "a1" "main";
            CreateWorktree Sim.morning "a2" "missing";
            UpdateLastActive (Sim.morning + MINUTE) "a1";
            DetectConflicts "a1" "main";
            CleanupStale Sim.noon 60;
            RemoveWorktree "a1" false]
           (Sim.fresh Sim.ok))).
Proof.
  apply (registry_stays_ok Sim.manager).
  split; constructor.
Defined.

Lemma staleness_test_is_exact_witness :
  (Sim.long_threshold * MINUTE
   < Sim.noon - last_active (of_row (H := Sim.host) (Sim.row_of "a1" (Sim.long_ago - 1000000))))%Z
  /\ Binary64.is_stale Sim.noon 60 (of_row (H := Sim.host) (Sim.row_of "a1" (Sim.noon - 60 * MINUTE - 1)))
     = true.
Proof.
  split.
  - apply (proj1 (staleness_test_is_exact Sim.noon Sim.long_threshold
                    (of_row (H := Sim.host) (Sim.row_of "a1" (Sim.long_ago - 1000000))))).
    + vm_compute. discriminate.
    + vm_compute. reflexivity.
  - apply (proj2 (staleness_test_is_exact Sim.noon 60
                    (of_row (H := Sim.host) (Sim.row_of "a1" (Sim.noon - 60 * MINUTE - 1))))).
    + vm_compute. discriminate.
    + vm_compute. reflexivity.
Defined.

Lemma three_present_keys : NoDup (map row_agent_id (db Sim.three_present)).
Proof.
  cbn. repeat constructor; cbn; intuition discriminate.
Defined.

Lemma cleanup_when_git_obliges_witness :
  fst (Binary64.cleanup_stale_worktrees Sim.noon 60 Sim.three_present)
  = Returns 2%Z
  /\ db (snd (Binary64.cleanup_stale_worktrees Sim.noon 60 Sim.three_present))
     = [Sim.row_of "a3" (Sim.morning + 150 * MINUTE)].
Proof.
  destruct (cleanup_when_git_obliges Sim.noon 60 Sim.three_present
              (snd (Binary64.cleanup_stale_worktrees Sim.noon 60 Sim.three_present))
              2
              (calls (snd (Binary64.cleanup_stale_worktrees Sim.noon 60
                             Sim.three_present))))
    as [Hdb Hn].
  - exact three_present_keys.
  - intros r [<- | [<- | [<- | []]]]; vm_compute; discriminate.
  - vm_compute. reflexivity.
  - reflexivity.
  - intros cmd result Hcall. vm_compute in Hcall.
    repeat (destruct Hcall as [Hcall | Hcall];
            [injection Hcall as _ <-; reflexivity|]).
    contradiction.
  - split; [vm_compute; reflexivity|]. rewrite Hdb. vm_compute. reflexivity.
Defined.

Lemma cleanup_sweeps_past_failures_witness :
  exists removed log w',
    Binary64.cleanup_stale_worktrees Sim.noon 60 Sim.three_agents
    = (Returns (Z.of_nat (List.length removed)), w')
    /\ db w' = without removed (db Sim.three_agents)
    /\ calls w' = calls Sim.three_agents ++ log
    /\ fst (Binary64.cleanup_stale_worktrees Sim.noon 60 Sim.three_agents)
       = Returns 1%Z
    /\ map row_agent_id
         (db (snd (Binary64.cleanup_stale_worktrees Sim.noon 60 Sim.three_agents)))
       = ["a2"; "a3"]
    /\ map fst
         (calls (snd (Binary64.cleanup_stale_worktrees Sim.noon 60
                        Sim.three_agents)))
       = [["git"; "worktree"; "remove"; "/srv/worktrees/worktree-a1"; "--force"];
          ["git"; "branch"; "-D"; "agent-a1"];
          ["git"; "worktree"; "remove"; "/srv/worktrees/worktree-a2"; "--force"]].
Proof.
  destruct (cleanup_sweeps_past_failures Sim.noon 60 Sim.three_agents)
    as (removed & log & w' & Hrun & Hdb & Hlog & _).
  - exact three_agents_keys.
  - intros r [<- | [<- | [<- | []]]]; vm_compute; discriminate.
  - exists removed, log, w'.
    conjs; [exact Hrun | exact Hdb | exact Hlog | | | ]; vm_compute; reflexivity.
Defined.

(** The two quotients of the staleness test agree with the Standard
    Library's IEEE division on inactivities small and large, of both
    signs, and on halves. *)
Example rounding_agrees_with_reference :
  forallb Reference.agrees
    [0; 1; -1; 7; 500000; 999999; 1000000; 1000001; 1500000; 2500000;
     59999999; 60000000; 60000001; 3600000000; 3600000001; -3600000001;
     Sim.noon - Sim.long_ago; 123456789012345678; -123456789012345678;
     315537897599999999; 9007199254740992; 9007199254740993;
     9007199254740993000000; 9007199254740995000000]%Z
  = true.
Proof. vm_compute. reflexivity. Qed.

(** The sweep of the three agents with the test as the source evaluates
    it: as with the exact reading, one removal is counted. *)
Example sweep_three_agents_rounded :
  let (r, w) := Binary64.cleanup_stale_worktrees Sim.noon 60 Sim.three_agents in
  r = Returns 1%Z /\ map row_agent_id (db w) = ["a2"; "a3"].
Proof. vm_compute. repeat split. Qed.
